(** * sbom-scanner: the SBOM pipeline of [main.go], embedded and verified

    The program stages a Maven descriptor into an output directory, runs three
    Maven goals and the OSV scanner as subprocesses, and decides from their
    results whether the run succeeded.  All of its logic is control flow around
    the operating system, so the embedding is a small [IO] monad over

    - a file system: a tree of files and directories with the structural
      behaviour of the system calls the program makes;
    - an environment [Env] standing for everything the program cannot decide:
      faults of system calls that the tree alone would allow (permissions, I/O
      errors), the behaviour of the subprocesses, [exec.LookPath], the platform
      and the clock;
    - the list of events a run emits, in order: system calls with their
      result, subprocesses with their result, log entries, prints, progress-bar
      updates and sleeps.

    [os.Exit] (reached through [logger.Fatalf]) ends a computation with an
    exit code; everything sequenced after it is skipped. *)

From stdpp Require Import gmap strings list fin_maps sorting pretty.
From Stdlib Require Import ZArith Ascii String.

Set Warnings "-register-all,-clear-no-such-hyp".
Local Open Scope string_scope.
Local Open Scope Z_scope.
Local Open Scope list_scope.

(** ** Paths

    A path value is the list of its element names from the root, so
    [filepath.Join] appends an element and [filepath.Dir] drops the last one.
    Names are opaque keys; they never contain a separator. *)

Abbreviation path := (list string).

Definition filepath_Join (dir : path) (name : string) : path := dir ++ [name].

Definition filepath_Dir (p : path) : path := removelast p.

Definition filepath_Base (p : path) : string := default "" (last p).

Definition path_string (p : path) : string :=
  match p with
  | [] => "/"
  | _ => foldr (λ x acc, "/" +:+ x +:+ acc) "" p
  end.

(** [filepath.Ext]: the suffix beginning at the final dot of the final
    element; empty when there is no dot. *)
Fixpoint ext_from (s : string) : option string :=
  match s with
  | EmptyString => None
  | String c s' =>
      match ext_from s' with
      | Some e => Some e
      | None => if Ascii.eqb c "."%char then Some s else None
      end
  end.

Definition filepath_Ext (p : path) : string :=
  default "" (ext_from (filepath_Base p)).

Definition strings_HasSuffix (s suffix : string) : bool :=
  (String.length suffix <=? String.length s)%nat &&
  String.eqb
    (String.substring (String.length s - String.length suffix)
       (String.length suffix) s)
    suffix.

Definition strings_TrimSuffix (s suffix : string) : string :=
  if strings_HasSuffix s suffix
  then String.substring 0 (String.length s - String.length suffix) s
  else s.

(** ** File system *)

Inductive node : Type :=
| File (data : string)
| Dir (ents : gmap string node).

Inductive errno : Type :=
| ENOENT | ENOTDIR | EISDIR | EEXIST | EINVAL | EBUSY
| EACCES | EPERM | EIO | ENOSPC.

#[global] Instance errno_eq_dec : EqDecision errno.
Proof. solve_decision. Defined.

(** Path resolution: [ENOENT] when a name is missing from a directory,
    [ENOTDIR] when the walk has to go through a regular file. *)
Fixpoint walk (p : path) (n : node) : errno + node :=
  match p with
  | [] => inr n
  | x :: p' =>
      match n with
      | File _ => inl ENOTDIR
      | Dir m =>
          match m !! x with
          | None => inl ENOENT
          | Some c => walk p' c
          end
      end
  end.

Definition is_file (p : path) (fs : node) : Prop :=
  ∃ d, walk p fs = inr (File d).

Definition is_dir (p : path) (fs : node) : Prop :=
  ∃ m, walk p fs = inr (Dir m).

Definition absent (p : path) (fs : node) : Prop :=
  ∃ e, walk p fs = inl e.

(** Rewrite the entry named by the last element of [p] in its parent
    directory; nothing changes unless the parent is an existing directory.
    The root itself is never replaced. *)
Fixpoint modify (p : path) (f : option node → option node) (n : node) : node :=
  match p, n with
  | [], _ => n
  | _, File _ => n
  | [x], Dir m => Dir (partial_alter f x m)
  | x :: p', Dir m =>
      match m !! x with
      | Some c => Dir (<[x := modify p' f c]> m)
      | None => n
      end
  end.

(** What the parent directory of [p] holds, for a call that is about to
    create, replace or remove the entry [p]. *)
Definition parent_of (p : path) (fs : node) : errno + gmap string node :=
  match walk (filepath_Dir p) fs with
  | inl e => inl e
  | inr (File _) => inl ENOTDIR
  | inr (Dir m) => inr m
  end.

(** [mkdir -p]: directories are created along the path wherever a name is
    missing; a regular file in the way is [ENOTDIR]. *)
Fixpoint fs_mkdirAll (p : path) (n : node) : errno + node :=
  match n with
  | File _ => inl ENOTDIR
  | Dir m =>
      match p with
      | [] => inr n
      | x :: p' =>
          match fs_mkdirAll p' (default (Dir ∅) (m !! x)) with
          | inl e => inl e
          | inr c => inr (Dir (<[x := c]> m))
          end
      end
  end.

(** [open(O_RDWR|O_CREATE|O_TRUNC)]. *)
Definition fs_create (p : path) (fs : node) : errno + node :=
  match p with
  | [] => inl EISDIR
  | _ =>
      match parent_of p fs with
      | inl e => inl e
      | inr m =>
          match m !! filepath_Base p with
          | Some (Dir _) => inl EISDIR
          | _ => inr (modify p (λ _, Some (File "")) fs)
          end
      end
  end.

(** [os.RemoveAll]: a path that does not exist is not an error. *)
Definition fs_removeAll (p : path) (fs : node) : errno + node :=
  match p with
  | [] => inl EBUSY
  | _ =>
      match walk (filepath_Dir p) fs with
      | inl ENOENT => inr fs
      | inl e => inl e
      | inr (File _) => inl ENOTDIR
      | inr (Dir _) => inr (modify p (λ _, None) fs)
      end
  end.

(** [os.Rename].  Go refuses an existing directory as the new name before it
    makes the system call (reporting the old name's error first, if it has
    one); the call itself replaces a regular file, and fails when the old
    name is missing, when a directory would be moved into itself or onto a
    regular file. *)
Definition fs_rename (old new : path) (fs : node) : errno + node :=
  match walk old fs with
  | inl e => inl e
  | inr n =>
      match walk new fs with
      | inr (Dir _) => inl EEXIST
      | target =>
          match old, parent_of new fs with
          | [], _ => inl EBUSY
          | _, inl e => inl e
          | _, inr _ =>
              if decide (old = new) then inr fs
              else if decide (old `prefix_of` new) then inl EINVAL
              else
                match n, target with
                | Dir _, inr (File _) => inl ENOTDIR
                | _, _ =>
                    inr (modify new (λ _, Some n) (modify old (λ _, None) fs))
                end
          end
      end
  end.

(** Reading a whole file through a descriptor, and writing through one:
    reading a directory is [EISDIR]. *)
Definition fs_read (p : path) (fs : node) : errno + string :=
  match walk p fs with
  | inl e => inl e
  | inr (Dir _) => inl EISDIR
  | inr (File d) => inr d
  end.

Definition fs_write (p : path) (d : string) (fs : node) : node :=
  modify p (λ _, Some (File d)) fs.

(** [os.ReadDir] returns the entries sorted by file name. *)
Definition name_le (a b : string) : Prop := String.leb a b = true.

#[global] Instance name_le_dec a b : Decision (name_le a b).
Proof. unfold name_le. apply _. Defined.

Definition fs_readDir (p : path) (fs : node) : errno + list string :=
  match walk p fs with
  | inl e => inl e
  | inr (File _) => inl ENOTDIR
  | inr (Dir m) => inr (merge_sort name_le (map fst (map_to_list m)))
  end.

(** ** Values of the Go runtime *)

(** How a subprocess ended, or that it never started. *)
Inductive proc_result : Type :=
| Exited (code : Z)
| Signaled (sig : string)
| LaunchFailure (why : string).

(** Go [error] values, by dynamic type. *)
Inductive error : Type :=
| PathError (op : string) (p : path) (e : errno)
| LinkError (op : string) (old new : path) (e : errno)
| SyscallError (call : string) (e : errno)
| ExitError (st : proc_result)
| ExecError (name why : string)
| Errorf (msg : string).

Definition errno_string (e : errno) : string :=
  match e with
  | ENOENT => "no such file or directory"
  | ENOTDIR => "not a directory"
  | EISDIR => "is a directory"
  | EEXIST => "file exists"
  | EINVAL => "invalid argument"
  | EBUSY => "device or resource busy"
  | EACCES => "permission denied"
  | EPERM => "operation not permitted"
  | EIO => "input/output error"
  | ENOSPC => "no space left on device"
  end.

(** [ExitError.ExitCode]: -1 unless the process exited by itself. *)
Definition ExitCode (st : proc_result) : Z :=
  match st with
  | Exited c => c
  | _ => -1
  end.

(** [err.Error()], which is what the verb [%v] prints. *)
Definition Error (err : error) : string :=
  match err with
  | PathError op p e => op +:+ " " +:+ path_string p +:+ ": " +:+ errno_string e
  | LinkError op old new e =>
      op +:+ " " +:+ path_string old +:+ " " +:+ path_string new +:+ ": "
         +:+ errno_string e
  | SyscallError call e => call +:+ ": " +:+ errno_string e
  | ExitError (Exited c) => "exit status " +:+ pretty c
  | ExitError (Signaled sig) => "signal: " +:+ sig
  | ExitError (LaunchFailure why) => why
  | ExecError name why => "exec: " +:+ name +:+ ": " +:+ why
  | Errorf msg => msg
  end.

Definition error_errno (err : error) : option errno :=
  match err with
  | PathError _ _ e | LinkError _ _ _ e | SyscallError _ e => Some e
  | _ => None
  end.

(** [os.IsNotExist]: true for [ENOENT] only; [nil] and [ENOTDIR] are not
    "does not exist". *)
Definition os_IsNotExist (err : option error) : bool :=
  match err with
  | Some e => bool_decide (error_errno e = Some ENOENT)
  | None => false
  end.

(** ** Events of a run *)

Inductive level : Type := Info | Warn | Fatal.

Inductive syscall : Type :=
| SysGetwd
| SysStat (p : path)
| SysMkdirAll (p : path)
| SysOpen (p : path)
| SysCreate (p : path)
| SysCopy (dst src : path)
| SysRename (old new : path)
| SysRemoveAll (p : path)
| SysReadDir (p : path).

(** Where a subprocess's standard output goes. *)
Inductive sink : Type :=
| Capture
| Inherit
| ToFile (p : path).

Record Cmd : Type := {
  cmd_name : string;
  cmd_args : list string;
  cmd_dir : option path;
  cmd_stdout : sink;
}.

Inductive stream : Type := Stdout | Stderr.

Inductive event : Type :=
| EvSys (c : syscall) (r : option errno)
| EvExec (c : Cmd) (r : proc_result)
| EvLog (l : level) (msg : string)
| EvPrint (s : stream) (text : string)
| EvBarSet (n : Z)
| EvBarClear
| EvSleep (ms : Z).

#[global] Instance proc_result_eq_dec : EqDecision proc_result.
Proof. solve_decision. Defined.
#[global] Instance level_eq_dec : EqDecision level.
Proof. solve_decision. Defined.
#[global] Instance syscall_eq_dec : EqDecision syscall.
Proof. solve_decision. Defined.
#[global] Instance sink_eq_dec : EqDecision sink.
Proof. solve_decision. Defined.
#[global] Instance Cmd_eq_dec : EqDecision Cmd.
Proof. solve_decision. Defined.
#[global] Instance stream_eq_dec : EqDecision stream.
Proof. solve_decision. Defined.
#[global] Instance event_eq_dec : EqDecision event.
Proof. solve_decision. Defined.

(** ** The environment *)

Record Env : Type := {
  (** a system call that the tree would allow fails all the same *)
  fault : syscall → node → option errno;
  (** a subprocess: how it ends, its combined output, the tree it leaves *)
  tool : Cmd → node → proc_result * string * node;
  (** [exec.LookPath] succeeds *)
  lookPath : string → node → bool;
  (** [runtime.GOOS] *)
  GOOS : string;
  (** [time.Since(startTime).Round(time.Second)], printed *)
  elapsed : string;
}.

(** ** The [IO] monad *)

Inductive res (A : Type) : Type :=
| Ret (a : A)
| Exit (code : Z).
Arguments Ret {A} a.
Arguments Exit {A} code.

Definition IO (A : Type) : Type := node → res A * node * list event.

Definition ret {A} (a : A) : IO A := λ fs, (Ret a, fs, []).

Definition bind {A B} (m : IO A) (k : A → IO B) : IO B := λ fs,
  match m fs with
  | (Ret a, fs1, ev1) =>
      match k a fs1 with
      | (r, fs2, ev2) => (r, fs2, ev1 ++ ev2)
      end
  | (Exit c, fs1, ev1) => (Exit c, fs1, ev1)
  end.

Definition emit (e : event) : IO unit := λ fs, (Ret tt, fs, [e]).

Definition os_Exit {A} (code : Z) : IO A := λ fs, (Exit code, fs, []).

Notation "'let*' x := m 'in' k" := (bind m (λ x, k))
  (at level 10, x pattern, m at level 100, k at level 200,
   format "'[v' 'let*'  x  :=  m  'in' '/' k ']'").
Notation "m ;;; k" := (bind m (λ _, k))
  (at level 100, k at level 200, right associativity,
   format "'[v' m  ;;; '/' k ']'").

Definition exit_code {A} (r : res A) : Z :=
  match r with
  | Ret _ => 0
  | Exit c => c
  end.

Definition nl : string := String "010"%char "".
Definition dq : string := String "034"%char "".

(** ** The program *)

Record Config : Type := {
  pomFile : path;
  outputDir : path;
  exitOnVuln : bool;
  showHelp : bool;
  check : bool;
}.

Record Task : Type := {
  name : string;
  action : IO (option error);
  progress : Z;
}.

Definition helpText : string :=
  "SBOM Scanner - Software Bill of Materials Scanner" +:+ nl +:+ nl +:+
  "Usage:" +:+ nl +:+
  "  sbom-scanner [flags]" +:+ nl +:+ nl +:+
  "Flags:" +:+ nl +:+
  "  -f, --file string     Path to POM file (default: " +:+ dq +:+
    "data/pom.xml" +:+ dq +:+ ")" +:+ nl +:+
  "  -o, --output string   Output directory (default: " +:+ dq +:+
    "scan-results" +:+ dq +:+ ")" +:+ nl +:+
  "  -e, --exit-on-vuln    Exit when vulnerabilities are found (for CI/CD)"
    +:+ nl +:+
  "                       [true: exits with error if vulnerabilities found]"
    +:+ nl +:+
  "                       [false: continues even if vulnerabilities found (default)]"
    +:+ nl +:+
  "  -h, --help           Show help message" +:+ nl +:+
  "  -c, --check          Check and install required dependencies" +:+ nl.

Section Program.
Context (env : Env).

(** *** System calls and library functions *)

(** A system call fails when the tree says so, or when the environment
    injects a fault; a failed call leaves the tree as it was. *)
Definition sys {A} (c : syscall) (run : node → errno + A * node)
  : IO (errno + A) := λ fs,
  match run fs with
  | inl e => (Ret (inl e), fs, [EvSys c (Some e)])
  | inr (a, fs') =>
      match fault env c fs with
      | Some e => (Ret (inl e), fs, [EvSys c (Some e)])
      | None => (Ret (inr a), fs', [EvSys c None])
      end
  end.

Definition updating (run : node → errno + node) (fs : node)
  : errno + unit * node :=
  match run fs with
  | inl e => inl e
  | inr fs' => inr (tt, fs')
  end.

Definition failure {A} (mk : errno → error) (r : errno + A) : option error :=
  match r with
  | inl e => Some (mk e)
  | inr _ => None
  end.

Definition result {A} (mk : errno → error) (r : errno + A) : error + A :=
  match r with
  | inl e => inl (mk e)
  | inr a => inr a
  end.

(** [filepath.Abs] fails when the working directory cannot be determined. *)
Definition filepath_Abs (p : path) : IO (error + path) :=
  let* r := sys SysGetwd (λ fs, inr (p, fs)) in
  ret (result (SyscallError "getwd") r).

Definition os_Stat (p : path) : IO (option error) :=
  let* r := sys (SysStat p)
              (λ fs, match walk p fs with
                     | inl e => inl e
                     | inr _ => inr (tt, fs)
                     end) in
  ret (failure (PathError "stat" p) r).

Definition os_MkdirAll (p : path) : IO (option error) :=
  let* r := sys (SysMkdirAll p) (updating (fs_mkdirAll p)) in
  ret (failure (PathError "mkdir" p) r).

(** Open files are named by their path: the program keeps no file open
    across a removal or a rename. *)
Definition os_Open (p : path) : IO (error + path) :=
  let* r := sys (SysOpen p)
              (λ fs, match walk p fs with
                     | inl e => inl e
                     | inr _ => inr (p, fs)
                     end) in
  ret (result (PathError "open" p) r).

Definition os_Create (p : path) : IO (error + path) :=
  let* r := sys (SysCreate p)
              (λ fs, match fs_create p fs with
                     | inl e => inl e
                     | inr fs' => inr (p, fs')
                     end) in
  ret (result (PathError "open" p) r).

Definition io_Copy (dst src : path) : IO (option error) :=
  let* r := sys (SysCopy dst src)
              (λ fs, match fs_read src fs with
                     | inl e => inl e
                     | inr d => inr (tt, fs_write dst d fs)
                     end) in
  ret (failure (PathError "read" src) r).

Definition os_Rename (old new : path) : IO (option error) :=
  let* r := sys (SysRename old new) (updating (fs_rename old new)) in
  ret (failure (LinkError "rename" old new) r).

Definition os_RemoveAll (p : path) : IO (option error) :=
  let* r := sys (SysRemoveAll p) (updating (fs_removeAll p)) in
  ret (failure (PathError "unlinkat" p) r).

Definition os_ReadDir (p : path) : IO (error + list string) :=
  let* r := sys (SysReadDir p)
              (λ fs, match fs_readDir p fs with
                     | inl e => inl e
                     | inr names => inr (names, fs)
                     end) in
  ret (result (PathError "open" p) r).

(** Starting a subprocess and waiting for it.  A process that could not be
    started has touched nothing. *)
Definition start (c : Cmd) : IO (proc_result * string) := λ fs,
  match tool env c fs with
  | (LaunchFailure why, _, _) =>
      (Ret (LaunchFailure why, ""), fs, [EvExec c (LaunchFailure why)])
  | (r, out, fs') => (Ret (r, out), fs', [EvExec c r])
  end.

Definition wait_error (c : Cmd) (r : proc_result) : option error :=
  match r with
  | Exited 0 => None
  | LaunchFailure why => Some (ExecError (cmd_name c) why)
  | _ => Some (ExitError r)
  end.

Definition cmd_CombinedOutput (c : Cmd) : IO (string * option error) :=
  let* (r, out) := start c in
  ret (out, wait_error c r).

Definition cmd_Run (c : Cmd) : IO (option error) :=
  let* (r, _) := start c in
  ret (wait_error c r).

Definition exec_LookPath (file : string) : IO bool := λ fs,
  (Ret (lookPath env file fs), fs, []).

Definition logger_Info (msg : string) : IO unit := emit (EvLog Info msg).
Definition logger_Warn (msg : string) : IO unit := emit (EvLog Warn msg).

Definition logger_Fatalf {A} (msg : string) : IO A :=
  emit (EvLog Fatal msg) ;;; os_Exit 1.

Definition fmt_Print (s : stream) (text : string) : IO unit :=
  emit (EvPrint s text).

Definition bar_Set (n : Z) : IO unit := emit (EvBarSet n).
Definition bar_Clear : IO unit := emit EvBarClear.
Definition time_Sleep (ms : Z) : IO unit := emit (EvSleep ms).

(** *** [copyFile] *)

Definition copyFile (src dst : path) : IO (option error) :=
  let* err := os_MkdirAll (filepath_Dir dst) in
  match err with
  | Some err =>
      ret (Some (Errorf ("failed to create destination directory: "
                           +:+ Error err)))
  | None =>
      let* r := os_Open src in
      match r with
      | inl err =>
          ret (Some (Errorf ("failed to open source file: " +:+ Error err)))
      | inr sourceFile =>
          let* r := os_Create dst in
          match r with
          | inl err =>
              ret (Some (Errorf ("failed to create destination file: "
                                   +:+ Error err)))
          | inr destFile =>
              let* err := io_Copy destFile sourceFile in
              match err with
              | Some err =>
                  ret (Some (Errorf ("failed to copy file: " +:+ Error err)))
              | None => ret None
              end
          end
      end
  end.

(** *** The Maven stages *)

Definition mvn_tree (absPomPath absOutputPath : path) : Cmd :=
  {| cmd_name := "mvn";
     cmd_args := ["dependency:tree"; "-f"; path_string absPomPath;
                  "-DoutputFile=" +:+ path_string absOutputPath;
                  "-DoutputType=text"];
     cmd_dir := Some (filepath_Dir absOutputPath);
     cmd_stdout := Capture |}.

Definition runMavenCommand (pomPath outputPath : path) : IO (option error) :=
  let* r := filepath_Abs pomPath in
  match r with
  | inl err =>
      ret (Some (Errorf ("failed to get absolute path: " +:+ Error err)))
  | inr absPomPath =>
      let* r := filepath_Abs outputPath in
      match r with
      | inl err =>
          ret (Some (Errorf ("failed to get absolute path: " +:+ Error err)))
      | inr absOutputPath =>
          let* (output, err) :=
            cmd_CombinedOutput (mvn_tree absPomPath absOutputPath) in
          match err with
          | Some err =>
              ret (Some (Errorf ("maven command failed: " +:+ Error err
                                   +:+ nl +:+ output)))
          | None =>
              logger_Info ("Dependency tree written to "
                             +:+ path_string outputPath) ;;;
              ret None
          end
      end
  end.

Definition mvn_effective (absPomPath absOutputPath : path) : Cmd :=
  {| cmd_name := "mvn";
     cmd_args := ["help:effective-pom"; "-f"; path_string absPomPath;
                  "-Doutput=" +:+ path_string absOutputPath];
     cmd_dir := Some (filepath_Dir absOutputPath);
     cmd_stdout := Capture |}.

Definition getEffectivePom (pomPath outputPath : path) : IO (option error) :=
  let* r := filepath_Abs pomPath in
  match r with
  | inl err =>
      ret (Some (Errorf ("failed to get absolute path: " +:+ Error err)))
  | inr absPomPath =>
      let* r := filepath_Abs outputPath in
      match r with
      | inl err =>
          ret (Some (Errorf ("failed to get absolute path: " +:+ Error err)))
      | inr absOutputPath =>
          let* (output, err) :=
            cmd_CombinedOutput (mvn_effective absPomPath absOutputPath) in
          match err with
          | Some err =>
              ret (Some (Errorf ("effective-pom generation failed: "
                                   +:+ Error err +:+ nl +:+ output)))
          | None =>
              logger_Info ("Effective POM written to "
                             +:+ path_string outputPath) ;;;
              ret None
          end
      end
  end.

Definition mvn_cyclonedx (absPomPath outputDir : path) : Cmd :=
  {| cmd_name := "mvn";
     cmd_args := ["org.cyclonedx:cyclonedx-maven-plugin:2.7.9:makeAggregateBom";
                  "-f"; path_string absPomPath;
                  "-DoutputFormat=xml"; "-DoutputFile=bom.xml"];
     cmd_dir := Some outputDir;
     cmd_stdout := Capture |}.

Definition generateCycloneDX (pomPath outputPath : path) : IO (option error) :=
  let* r := filepath_Abs pomPath in
  match r with
  | inl err =>
      ret (Some (Errorf ("failed to get absolute path: " +:+ Error err)))
  | inr absPomPath =>
      let* r := filepath_Abs outputPath in
      match r with
      | inl err =>
          ret (Some (Errorf ("failed to get absolute path: " +:+ Error err)))
      | inr absOutputPath =>
          let outputDir := filepath_Dir absOutputPath in
          let targetDir := filepath_Join outputDir "target" in
          let* err := os_MkdirAll targetDir in
          match err with
          | Some err =>
              ret (Some (Errorf ("failed to create target directory: "
                                   +:+ Error err)))
          | None =>
              let* (output, err) :=
                cmd_CombinedOutput (mvn_cyclonedx absPomPath outputDir) in
              match err with
              | Some err =>
                  ret (Some (Errorf ("cyclonedx generation failed: "
                                       +:+ Error err +:+ nl +:+ output)))
              | None =>
                  let srcPath := filepath_Join targetDir "bom.xml" in
                  let* err := os_Rename srcPath absOutputPath in
                  match err with
                  | Some err =>
                      ret (Some (Errorf ("failed to move SBOM to output dir: "
                                           +:+ Error err)))
                  | None =>
                      let* err := os_RemoveAll targetDir in
                      match err with
                      | Some err =>
                          logger_Warn ("Failed to clean up target directory: "
                                         +:+ Error err)
                      | None => ret tt
                      end ;;;
                      logger_Info ("CycloneDX BOM written to "
                                     +:+ path_string outputPath) ;;;
                      ret None
                  end
              end
          end
      end
  end.

(** *** The vulnerability scan *)

(** [strings.TrimSuffix(sbomPath, filepath.Ext(sbomPath)) +
    "-vulnerabilities.json"]: the extension sits in the final element, so
    only that element changes. *)
Definition reportPath (sbomPath : path) : path :=
  filepath_Dir sbomPath ++
  [strings_TrimSuffix (filepath_Base sbomPath) (filepath_Ext sbomPath)
     +:+ "-vulnerabilities.json"].

Definition osv_scanner (absSbomPath outputFile : path) : Cmd :=
  {| cmd_name := "osv-scanner";
     cmd_args := ["--sbom"; path_string absSbomPath; "--format"; "json"];
     cmd_dir := None;
     cmd_stdout := ToFile outputFile |}.

Definition isExitStatus1 (err : option error) : bool :=
  match err with
  | Some (ExitError exitErr) => bool_decide (ExitCode exitErr = 1)
  | _ => false
  end.

Definition runOSVScanner (sbomPath : path) (exitOnVuln : bool)
  : IO (option error) :=
  let* r := filepath_Abs sbomPath in
  match r with
  | inl err =>
      ret (Some (Errorf ("failed to get absolute path: " +:+ Error err)))
  | inr absSbomPath =>
      let* err := os_Stat absSbomPath in
      if os_IsNotExist err then
        ret (Some (Errorf ("SBOM file not found: "
                             +:+ path_string absSbomPath)))
      else
        let outputPath := reportPath sbomPath in
        let* r := filepath_Abs outputPath in
        match r with
        | inl err =>
            ret (Some (Errorf ("failed to get absolute path: "
                                 +:+ Error err)))
        | inr absOutputPath =>
            let* r := os_Create absOutputPath in
            match r with
            | inl err =>
                ret (Some (Errorf ("failed to create output file: "
                                     +:+ Error err)))
            | inr outputFile =>
                let* err := cmd_Run (osv_scanner absSbomPath outputFile) in
                if isExitStatus1 err then
                  if exitOnVuln then
                    ret (Some (Errorf
                                 ("vulnerabilities found, see details in: "
                                    +:+ path_string outputPath)))
                  else
                    logger_Warn ("Vulnerabilities found! Details: "
                                   +:+ path_string outputPath) ;;;
                    ret None
                else
                  match err with
                  | Some err =>
                      ret (Some (Errorf ("osv-scanner error: "
                                           +:+ Error err)))
                  | None =>
                      logger_Info ("Vulnerability report written to "
                                     +:+ path_string outputPath) ;;;
                      ret None
                  end
            end
        end
  end.

(** *** [checkDependencies] *)

Definition installer (name : string) (args : list string) : Cmd :=
  {| cmd_name := name; cmd_args := args;
     cmd_dir := None; cmd_stdout := Inherit |}.

(** The [switch runtime.GOOS] that picks the command installing Maven. *)
Definition maven_installer : IO (error + Cmd) :=
  if decide (GOOS env = "darwin") then
    logger_Info "Installing Maven via Homebrew..." ;;;
    ret (inr (installer "brew" ["install"; "maven"]))
  else if decide (GOOS env = "linux") then
    logger_Info "Installing Maven via package manager..." ;;;
    let* apt := exec_LookPath "apt-get" in
    if apt then
      ret (inr (installer "sudo" ["apt-get"; "install"; "-y"; "maven"]))
    else
      let* yum := exec_LookPath "yum" in
      if yum then
        ret (inr (installer "sudo" ["yum"; "install"; "-y"; "maven"]))
      else ret (inl (Errorf "no supported package manager found"))
  else ret (inl (Errorf ("unsupported operating system: " +:+ GOOS env))).

Definition checkMaven : IO (option error) :=
  let* found := exec_LookPath "mvn" in
  if found then
    logger_Info "Maven is already installed" ;;;
    ret None
  else
    logger_Warn "Maven is not installed" ;;;
    let* r := maven_installer in
    match r with
    | inl err => ret (Some err)
    | inr cmd =>
        let* err := cmd_Run cmd in
        match err with
        | Some err =>
            ret (Some (Errorf ("failed to install Maven: " +:+ Error err)))
        | None =>
            logger_Info "Maven installed successfully" ;;;
            ret None
        end
    end.

Definition checkOSVScanner : IO (option error) :=
  let* found := exec_LookPath "osv-scanner" in
  if found then
    logger_Info "OSV Scanner is already installed" ;;;
    ret None
  else
    logger_Warn "OSV Scanner is not installed" ;;;
    logger_Info "Installing OSV Scanner..." ;;;
    let* err :=
      cmd_Run (installer "go"
                 ["install";
                  "github.com/google/osv-scanner/cmd/osv-scanner@latest"]) in
    match err with
    | Some err =>
        ret (Some (Errorf ("failed to install OSV Scanner: " +:+ Error err)))
    | None =>
        logger_Info "OSV Scanner installed successfully" ;;;
        ret None
    end.

Definition checkDependencies : IO (option error) :=
  let* err := checkMaven in
  match err with
  | Some err => ret (Some err)
  | None => checkOSVScanner
  end.

(** *** [cleanDirectory] *)

Fixpoint remove_entries (dir : path) (entries : list string)
  : IO (option error) :=
  match entries with
  | [] => ret None
  | entry :: rest =>
      let path := filepath_Join dir entry in
      let* err := os_RemoveAll path in
      match err with
      | Some err => ret (Some err)
      | None => remove_entries dir rest
      end
  end.

Definition cleanDirectory (dir : path) : IO (option error) :=
  let* r := os_ReadDir dir in
  match r with
  | inl err => ret (Some err)
  | inr entries => remove_entries dir entries
  end.

(** *** [main] *)

Definition dstPomPath (cfg : Config) : path :=
  filepath_Join (outputDir cfg) "pom.xml".
Definition depsPath (cfg : Config) : path :=
  filepath_Join (outputDir cfg) "deps-tree.txt".
Definition effectivePomPath (cfg : Config) : path :=
  filepath_Join (outputDir cfg) "effective-pom.xml".
Definition sbomPath (cfg : Config) : path :=
  filepath_Join (outputDir cfg) "sbom.xml".

(** Lines 342-361: the output directory is created, emptied, and the
    descriptor copied into it. *)
Definition stageArtifacts (cfg : Config) : IO unit :=
  let* err := os_MkdirAll (outputDir cfg) in
  match err with
  | Some err => logger_Fatalf ("Failed to create directory: " +:+ Error err)
  | None => ret tt
  end ;;;
  let* err := cleanDirectory (outputDir cfg) in
  match err with
  | Some err => logger_Fatalf ("Failed to clean directory: " +:+ Error err)
  | None => ret tt
  end ;;;
  let* err := copyFile (pomFile cfg) (dstPomPath cfg) in
  match err with
  | Some err => logger_Fatalf ("Failed to copy POM file: " +:+ Error err)
  | None => ret tt
  end ;;;
  logger_Info "Copying POM File".

(** Lines 324-361: everything [main] does before the task list. *)
Definition setup (cfg : Config) : IO unit :=
  (if showHelp cfg then
     fmt_Print Stderr helpText ;;;
     os_Exit 0
   else ret tt) ;;;
  (if check cfg then
     let* err := checkDependencies in
     match err with
     | Some err => logger_Fatalf ("Dependency check failed: " +:+ Error err)
     | None => ret tt
     end ;;;
     logger_Info "All required dependencies are installed" ;;;
     os_Exit 0
   else ret tt) ;;;
  let* err := os_Stat (pomFile cfg) in
  (if os_IsNotExist err then
     logger_Fatalf ("POM file not found: " +:+ path_string (pomFile cfg))
   else ret tt) ;;;
  stageArtifacts cfg.

Definition tasks (cfg : Config) : list Task :=
  [ {| name := "Analyzing Dependencies";
       action := runMavenCommand (dstPomPath cfg) (depsPath cfg);
       progress := 20 |};
    {| name := "Generating Effective POM";
       action := getEffectivePom (dstPomPath cfg) (effectivePomPath cfg);
       progress := 20 |};
    {| name := "Generating CycloneDX SBOM";
       action := generateCycloneDX (dstPomPath cfg) (sbomPath cfg);
       progress := 30 |};
    {| name := "Scanning for Vulnerabilities";
       action := runOSVScanner (sbomPath cfg) (exitOnVuln cfg);
       progress := 30 |} ].

(** The [for _, task := range tasks] loop, from [completedProgress]. *)
Fixpoint run_tasks (ts : list Task) (completedProgress : Z) : IO Z :=
  match ts with
  | [] => ret completedProgress
  | task :: rest =>
      logger_Info (name task) ;;;
      let* err := action task in
      match err with
      | Some err =>
          fmt_Print Stdout nl ;;;
          logger_Fatalf (name task +:+ " error: " +:+ Error err)
      | None => ret tt
      end ;;;
      let completedProgress := completedProgress + progress task in
      bar_Set completedProgress ;;;
      time_Sleep 100 ;;;
      run_tasks rest completedProgress
  end.

(** Lines 363-433: the task list, the progress bar and the loop. *)
Definition pipeline (cfg : Config) : IO unit :=
  let completedProgress := 0 in
  bar_Set 10 ;;;
  let* completedProgress := run_tasks (tasks cfg) completedProgress in
  bar_Clear ;;;
  fmt_Print Stdout (nl +:+ "Completed in " +:+ elapsed env +:+ nl) ;;;
  logger_Info "Process completed successfully!".

Definition main (cfg : Config) : IO unit :=
  setup cfg ;;;
  pipeline cfg.

End Program.

(** ** The program at work *)

Module Demo.

(** A machine on which every tool works: each Maven goal writes its output
    file, the scanner exits with [scan_code]. *)
Definition good_tool (scan_code : Z) (c : Cmd) (fs : node)
  : proc_result * string * node :=
  match cmd_args c with
  | "dependency:tree" :: _ =>
      (Exited 0, "", fs_write ["out"; "deps-tree.txt"] "tree" fs)
  | "help:effective-pom" :: _ =>
      (Exited 0, "", fs_write ["out"; "effective-pom.xml"] "<project/>" fs)
  | "org.cyclonedx:cyclonedx-maven-plugin:2.7.9:makeAggregateBom" :: _ =>
      (Exited 0, "", fs_write ["out"; "target"; "bom.xml"] "<bom/>" fs)
  | "--sbom" :: _ =>
      (Exited scan_code, "",
       fs_write ["out"; "sbom-vulnerabilities.json"] "{}" fs)
  | _ => (LaunchFailure "executable file not found in $PATH", "", fs)
  end.

Definition good_env (scan_code : Z) : Env :=
  {| fault := λ _ _, None;
     tool := good_tool scan_code;
     lookPath := λ _ _, true;
     GOOS := "linux";
     elapsed := "1s" |}.

Definition fs0 : node :=
  Dir (<["out" := Dir (<["stale.txt" := File "old"]> (<["old" := Dir ∅]> ∅))]>
       (<["pom.xml" := File "<project/>"]> ∅)).

Definition cfg0 (e : bool) : Config :=
  {| pomFile := ["pom.xml"]; outputDir := ["out"];
     exitOnVuln := e; showHelp := false; check := false |}.

(** A machine on which every subprocess fails. *)
Definition failing_env : Env :=
  {| fault := λ _ _, None;
     tool := λ _ fs, (Exited 1, "BUILD FAILURE", fs);
     lookPath := λ _ _, true;
     GOOS := "linux";
     elapsed := "1s" |}.

(** A BOM plugin that exits 0 and writes nothing. *)
Definition silent_env : Env :=
  {| fault := λ _ _, None;
     tool := λ _ fs, (Exited 0, "", fs);
     lookPath := λ _ _, true;
     GOOS := "linux";
     elapsed := "1s" |}.

(** The scratch directory cannot be removed. *)
Definition sticky_env : Env :=
  {| fault := λ c _, if decide (c = SysRemoveAll ["out"; "target"])
                     then Some EACCES else None;
     tool := good_tool 0;
     lookPath := λ _ _, true;
     GOOS := "linux";
     elapsed := "1s" |}.

(** The output directory after staging. *)
Definition staged_fs : node :=
  Dir (<["out" := Dir (<["pom.xml" := File "<project/>"]> ∅)]>
       (<["pom.xml" := File "<project/>"]> ∅)).

(** An SBOM beside a directory that has the name of the report. *)
Definition blocked_fs : node :=
  Dir (<["out" := Dir (<["sbom-vulnerabilities.json" := Dir ∅]>
                       (<["sbom.xml" := File "<bom/>"]> ∅))]> ∅).

Definition cfg_missing : Config :=
  {| pomFile := ["nowhere"; "pom.xml"]; outputDir := ["out"];
     exitOnVuln := false; showHelp := false; check := false |}.

End Demo.

(** ** Observations on a run *)

(** [put p v fs] replaces the node at an existing path [p] by [v]; the
    effect of every call on the tree is stated with it. *)
Fixpoint put (p : path) (v : node) (n : node) : node :=
  match p with
  | [] => v
  | x :: p' =>
      match n with
      | File _ => n
      | Dir m =>
          match m !! x with
          | Some c => Dir (<[x := put p' v c]> m)
          | None => n
          end
      end
  end.

(** The last step of [stageArtifacts] on its own: the copy of the
    descriptor and what [main] does with its result. *)
Definition stageCopy (env : Env) (cfg : Config) : IO unit :=
  let* err := copyFile env (pomFile cfg) (dstPomPath cfg) in
  match err with
  | Some err => logger_Fatalf ("Failed to copy POM file: " +:+ Error err)
  | None => ret tt
  end ;;;
  logger_Info "Copying POM File".

(** No system call fails unless the tree itself makes it fail. *)
Definition fault_free (env : Env) : Prop := ∀ c fs, fault env c fs = None.

(** How a system call fails: by the tree, or by a fault where the tree
    would have let it through. *)
Definition sys_fails (env : Env) {A} (c : syscall)
    (run : node → errno + A * node) (fs : node) (e : errno) : Prop :=
  run fs = inl e ∨ (fault env c fs = Some e ∧ ∃ x, run fs = inr x).

(** The subprocesses a run started, with how each ended. *)
Definition execs (evs : list event) : list (Cmd * proc_result) :=
  omap (λ ev, match ev with EvExec c st => Some (c, st) | _ => None end) evs.

(** The values the progress bar was set to. *)
Definition bars (evs : list event) : list Z :=
  omap (λ ev, match ev with EvBarSet n => Some n | _ => None end) evs.

Definition stage_names : list string :=
  ["Analyzing Dependencies"; "Generating Effective POM";
   "Generating CycloneDX SBOM"; "Scanning for Vulnerabilities"].

Definition is_stage_name (msg : string) : bool :=
  existsb (String.eqb msg) stage_names.

(** The stages a run entered: the loop logs a task's name before it calls
    the task's action. *)
Definition started (evs : list event) : list string :=
  omap (λ ev, match ev with
              | EvLog Info msg => if is_stage_name msg then Some msg else None
              | _ => None
              end) evs.

(** The events of a run before the progress bar first shows [n]. *)
Fixpoint before_bar (n : Z) (evs : list event) : list event :=
  match evs with
  | [] => []
  | EvBarSet m :: rest =>
      if m =? n then [] else EvBarSet m :: before_bar n rest
  | ev :: rest => ev :: before_bar n rest
  end.

(** The four external commands of a run, in the order of the task list. *)
Definition commands (cfg : Config) : list Cmd :=
  [ mvn_tree (dstPomPath cfg) (depsPath cfg);
    mvn_effective (dstPomPath cfg) (effectivePomPath cfg);
    mvn_cyclonedx (dstPomPath cfg) (filepath_Dir (sbomPath cfg));
    osv_scanner (sbomPath cfg) (reportPath (sbomPath cfg)) ].

(** Event lists without subprocesses, bar updates and stage names. *)
Definition quiet (evs : list event) : Prop :=
  execs evs = [] ∧ bars evs = [] ∧ started evs = [].

(** What the loop may rely on for each of its four actions: the action
    returns, touches neither the bar nor the stage log, and starts its own
    command at most once -- exactly once when it reports success. *)
Definition stage_like (cmd : Cmd) (m : IO (option error)) : Prop :=
  ∀ fs r fs' evs, m fs = (r, fs', evs) →
    ∃ o, r = Ret o ∧ bars evs = [] ∧ started evs = [] ∧
         ((execs evs = [] ∧ o ≠ None) ∨ ∃ st, execs evs = [(cmd, st)]).

(** The classification of a scanner result as the specification words it
    (section 4.6), to compare [runOSVScanner] with. *)
Inductive verdict : Type := Success | Advisory | FatalError.

Definition classifyScanResult (exitOnVuln : bool) (st : proc_result) : verdict :=
  match st with
  | Exited 0 => Success
  | Exited 1 => if exitOnVuln then FatalError else Advisory
  | _ => FatalError
  end.

(** ** The file system: lemmas *)

Section FsLemmas.
Implicit Types (p q : path) (fs n : node) (m : gmap string node).

Lemma walk_app p q fs :
  walk (p ++ q) fs = match walk p fs with inl e => inl e | inr n => walk q n end.
Proof.
  revert fs. induction p as [|x p IH]; intros fs; simpl; [done|].
  destruct fs as [d|m]; [done|]. destruct (m !! x); [apply IH|done].
Qed.

Lemma walk_file_inv p d n : walk p (File d) = inr n → p = [] ∧ n = File d.
Proof. destruct p; simpl; intros; by simplify_eq. Qed.

Lemma walk_empty_dir p n : walk p (Dir ∅) = inr n → p = [] ∧ n = Dir ∅.
Proof.
  destruct p as [|x p]; simpl; intros H; [by simplify_eq|].
  by rewrite lookup_empty in H.
Qed.

Lemma filepath_Dir_Join p x : filepath_Dir (filepath_Join p x) = p.
Proof. apply removelast_last. Qed.

Lemma filepath_Base_Join p x : filepath_Base (filepath_Join p x) = x.
Proof. unfold filepath_Base, filepath_Join. by rewrite last_snoc. Qed.

Lemma path_split p :
  p ≠ [] → p = filepath_Join (filepath_Dir p) (filepath_Base p).
Proof.
  intros Hp. destruct (exists_last Hp) as (d & x & ->).
  fold (filepath_Join d x). by rewrite filepath_Dir_Join, filepath_Base_Join.
Qed.

Lemma Join_not_nil p x : filepath_Join p x ≠ [].
Proof. unfold filepath_Join. by destruct p. Qed.

Lemma walk_Join p x fs m :
  walk p fs = inr (Dir m) →
  walk (filepath_Join p x) fs =
    match m !! x with Some c => inr c | None => inl ENOENT end.
Proof.
  intros H. unfold filepath_Join. rewrite walk_app, H. simpl.
  by destruct (m !! x).
Qed.

Lemma parent_of_Join p x fs m :
  walk p fs = inr (Dir m) → parent_of (filepath_Join p x) fs = inr m.
Proof. intros H. unfold parent_of. by rewrite filepath_Dir_Join, H. Qed.

(** *** [put] *)

Lemma walk_put p v fs n : walk p fs = inr n → walk p (put p v fs) = inr v.
Proof.
  revert fs. induction p as [|x p IH]; intros fs; simpl; [done|].
  destruct fs as [d|m]; [done|]. destruct (m !! x) as [c|] eqn:Hx; [|done].
  intros H. simpl. rewrite lookup_insert_eq. by apply IH.
Qed.

Lemma put_put p v w fs : put p v (put p w fs) = put p v fs.
Proof.
  revert fs. induction p as [|x p IH]; intros fs; simpl; [done|].
  destruct fs as [d|m]; [done|]. destruct (m !! x) as [c|] eqn:Hx; simpl.
  - by rewrite lookup_insert_eq, insert_insert_eq, IH.
  - by rewrite Hx.
Qed.

Lemma put_id p v fs : walk p fs = inr v → put p v fs = fs.
Proof.
  revert fs. induction p as [|x p IH]; intros fs; simpl; [congruence|].
  destruct fs as [d|m]; [done|]. destruct (m !! x) as [c|] eqn:Hx; [|done].
  intros H. rewrite (IH _ H). by rewrite insert_id.
Qed.

(** *** [modify] *)

Lemma modify_cons x q f m :
  q ≠ [] →
  modify (x :: q) f (Dir m) =
    match m !! x with
    | Some c => Dir (<[x := modify q f c]> m)
    | None => Dir m
    end.
Proof. by destruct q. Qed.

Lemma modify_Join p x f fs m :
  walk p fs = inr (Dir m) →
  modify (filepath_Join p x) f fs = put p (Dir (partial_alter f x m)) fs.
Proof.
  unfold filepath_Join.
  revert fs. induction p as [|y p IH]; intros fs.
  - by intros [= ->].
  - destruct fs as [d|m0]; [done|]. intros H. simpl in H.
    assert (p ++ [x] ≠ []) as Hne by (by destruct p).
    change ((y :: p) ++ [x]) with (y :: (p ++ [x])).
    rewrite modify_cons by done. simpl.
    destruct (m0 !! y) as [c|] eqn:Hy; [|done]. by rewrite (IH _ H).
Qed.

(** A call that only removes entries, or writes regular files, puts a
    regular file nowhere but at its own path. *)
Lemma walk_modify_file p q f fs d :
  (∀ o v, f o = Some v → ∃ d', v = File d') →
  walk p (modify q f fs) = inr (File d) →
  walk p fs = inr (File d) ∨ (p = q ∧ ∃ o, f o = Some (File d)).
Proof.
  intros Hf. revert p fs.
  induction q as [|x q IH]; intros p fs; [simpl; by left|].
  destruct fs as [d0|m]; [destruct q; simpl; by left|].
  destruct (decide (q = [])) as [->|Hq].
  - simpl. destruct p as [|y p]; simpl; [done|].
    destruct (decide (x = y)) as [->|Hxy].
    + rewrite lookup_partial_alter_eq.
      destruct (f (m !! y)) as [v|] eqn:Hv; [|done].
      destruct (Hf _ _ Hv) as [d' ->]. intros H.
      apply walk_file_inv in H as [-> [= ->]]. right. eauto.
    + rewrite lookup_partial_alter_ne by done. by left.
  - rewrite modify_cons by done.
    destruct (m !! x) as [c|] eqn:Hx; [|by left].
    destruct p as [|y p]; simpl; [done|].
    destruct (decide (x = y)) as [->|Hxy].
    + rewrite lookup_insert_eq, Hx. intros H.
      destruct (IH _ _ H) as [?|[-> ?]]; [by left|by right].
    + rewrite lookup_insert_ne by done. by left.
Qed.

(** *** [fs_mkdirAll] *)

Lemma mkdirAll_dir p fs m : walk p fs = inr (Dir m) → fs_mkdirAll p fs = inr fs.
Proof.
  revert fs. induction p as [|x p IH]; intros fs; simpl.
  - by intros [= ->].
  - destruct fs as [d|m0]; [done|].
    destruct (m0 !! x) as [c|] eqn:Hx; [|done]. intros H. simpl.
    rewrite (IH _ H). by rewrite insert_id.
Qed.

Lemma mkdirAll_is_dir p fs fs' : fs_mkdirAll p fs = inr fs' → is_dir p fs'.
Proof.
  revert fs fs'. induction p as [|x p IH]; intros fs fs'.
  - destruct fs as [d|m]; simpl; [done|]. intros [= <-]. by exists m.
  - destruct fs as [d|m]; simpl; [done|].
    destruct (fs_mkdirAll p (default (Dir ∅) (m !! x))) as [e|c] eqn:Hc; [done|].
    intros [= <-]. unfold is_dir. simpl. rewrite lookup_insert_eq.
    by apply (IH _ _ Hc).
Qed.

Lemma mkdirAll_file q fs fs' p d :
  fs_mkdirAll q fs = inr fs' →
  walk p fs' = inr (File d) → walk p fs = inr (File d).
Proof.
  revert fs fs' p. induction q as [|x q IH]; intros fs fs' p.
  - destruct fs as [d0|m]; simpl; [done|]. by intros [= <-].
  - destruct fs as [d0|m]; simpl; [done|].
    destruct (fs_mkdirAll q (default (Dir ∅) (m !! x))) as [e|c] eqn:Hc; [done|].
    intros [= <-]. destruct p as [|y p]; simpl; [done|].
    destruct (decide (x = y)) as [->|Hxy].
    + rewrite lookup_insert_eq. intros H. pose proof (IH _ _ _ Hc H) as H'.
      destruct (m !! y) as [c0|]; simpl in H'; [done|].
      by apply walk_empty_dir in H' as [_ ?].
    + by rewrite lookup_insert_ne.
Qed.

(** *** [fs_create], [fs_removeAll], [fs_rename] *)

Lemma create_inv p fs fs' :
  fs_create p fs = inr fs' →
  ∃ m, p ≠ [] ∧ walk (filepath_Dir p) fs = inr (Dir m) ∧
       (∀ m', m !! filepath_Base p ≠ Some (Dir m')) ∧
       fs' = put (filepath_Dir p) (Dir (<[filepath_Base p := File ""]> m)) fs.
Proof.
  unfold fs_create. destruct (decide (p = [])) as [->|Hp]; [done|].
  destruct p as [|y p'] eqn:Ep; [done|]. rewrite <- Ep in *. clear Ep y p'.
  unfold parent_of.
  destruct (walk (filepath_Dir p) fs) as [e|[d|m]] eqn:Hw; try done.
  pose proof (modify_Join _ (filepath_Base p) (λ _, Some (File "")) _ _ Hw) as E.
  rewrite <- (path_split p Hp) in E.
  destruct (m !! filepath_Base p) as [[?|?]|] eqn:Hx; [|done|];
    intros [= <-]; exists m; rewrite E; repeat split; try done; congruence.
Qed.

Lemma create_walk p fs fs' : fs_create p fs = inr fs' → walk p fs' = inr (File "").
Proof.
  intros (m & Hp & Hw & _ & ->)%create_inv. rewrite (path_split p Hp) at 1.
  rewrite (walk_Join _ _ _ _ (walk_put _ _ _ _ Hw)).
  by rewrite lookup_insert_eq.
Qed.

Lemma create_file q fs fs' p d :
  fs_create q fs = inr fs' →
  walk p fs' = inr (File d) → walk p fs = inr (File d) ∨ p = q.
Proof.
  unfold fs_create. destruct q as [|x q]; [done|].
  destruct (parent_of (x :: q) fs) as [e|m]; [done|].
  intros Hc H.
  assert (fs' = modify (x :: q) (λ _, Some (File "")) fs) as ->.
  { destruct (m !! filepath_Base (x :: q)) as [[?|?]|]; by simplify_eq. }
  apply walk_modify_file in H as [?|[? _]]; eauto.
  intros ?? [= <-]. eauto.
Qed.

Lemma create_not_dir p fs fs' m : fs_create p fs = inr fs' → walk p fs ≠ inr (Dir m).
Proof.
  intros (m0 & Hp & Hw & Hx & _)%create_inv. rewrite (path_split p Hp).
  rewrite (walk_Join _ _ _ _ Hw).
  destruct (m0 !! filepath_Base p) as [[?|?]|] eqn:E; congruence.
Qed.

Lemma removeAll_file q fs fs' p d :
  fs_removeAll q fs = inr fs' →
  walk p fs' = inr (File d) → walk p fs = inr (File d).
Proof.
  unfold fs_removeAll. destruct q as [|x q]; [done|].
  destruct (walk (filepath_Dir (x :: q)) fs) as [[]|[?|?]]; try done.
  - by intros [= <-].
  - intros Hr H.
    assert (fs' = modify (x :: q) (λ _, None) fs) as -> by congruence.
    apply walk_modify_file in H as [?|[_ [? ?]]]; done.
Qed.

Lemma rename_missing old new fs e : walk old fs = inl e → fs_rename old new fs = inl e.
Proof. unfold fs_rename. by intros ->. Qed.
End FsLemmas.

(** ** Reasoning about [IO] computations *)

Lemma bind_inv {A B} (m : IO A) (k : A → IO B) fs r fs' evs :
  bind m k fs = (r, fs', evs) →
  (∃ a fs1 ev1 ev2,
      m fs = (Ret a, fs1, ev1) ∧ k a fs1 = (r, fs', ev2) ∧ evs = ev1 ++ ev2)
  ∨ (∃ c, m fs = (Exit c, fs', evs) ∧ r = Exit c).
Proof.
  unfold bind. destruct (m fs) as [[[a|c] fs1] ev1].
  - destruct (k a fs1) as [[r2 fs2] ev2] eqn:Hk. intros [= <- <- <-].
    left. by exists a, fs1, ev1, ev2.
  - intros [= <- <- <-]. right. by exists c.
Qed.

Section Inversion.
Context (env : Env).

Lemma ret_inv {A} (a : A) fs r fs' evs :
  ret a fs = (r, fs', evs) → r = Ret a ∧ fs' = fs ∧ evs = [].
Proof. by intros [= <- <- <-]. Qed.

Lemma emit_inv e fs r fs' evs :
  emit e fs = (r, fs', evs) → r = Ret tt ∧ fs' = fs ∧ evs = [e].
Proof. by intros [= <- <- <-]. Qed.

Lemma os_Exit_inv {A} c fs (r : res A) fs' evs :
  os_Exit c fs = (r, fs', evs) → r = Exit c ∧ fs' = fs ∧ evs = [].
Proof. by intros [= <- <- <-]. Qed.

Lemma sys_inv {A} c (run : node → errno + A * node) fs r fs' evs :
  sys env c run fs = (r, fs', evs) →
  (∃ e, r = Ret (inl e) ∧ fs' = fs ∧ evs = [EvSys c (Some e)] ∧
        sys_fails env c run fs e)
  ∨ (∃ a, r = Ret (inr a) ∧ evs = [EvSys c None] ∧
          run fs = inr (a, fs') ∧ fault env c fs = None).
Proof.
  unfold sys, sys_fails. destruct (run fs) as [e|[a fs1]] eqn:Hrun.
  - intros [= <- <- <-]. left. exists e. eauto.
  - destruct (fault env c fs) as [e|] eqn:Hf; intros [= <- <- <-].
    + left. exists e. eauto 10.
    + right. exists a. eauto.
Qed.

Lemma start_inv c fs r fs' evs :
  start env c fs = (r, fs', evs) →
  ∃ st out, r = Ret (st, out) ∧ evs = [EvExec c st] ∧
    st = (tool env c fs).1.1 ∧
    fs' = match st with LaunchFailure _ => fs | _ => (tool env c fs).2 end.
Proof.
  unfold start. destruct (tool env c fs) as [[[code|sig|why] out] fs1];
    intros [= <- <- <-]; simpl; eauto 10.
Qed.

Lemma exec_LookPath_inv file fs r fs' evs :
  exec_LookPath env file fs = (r, fs', evs) →
  r = Ret (lookPath env file fs) ∧ fs' = fs ∧ evs = [].
Proof. by intros [= <- <- <-]. Qed.

End Inversion.

(** [io_run H] follows the computation in [H : m fs = (r, fs', evs)] along
    every path it can take. *)
Ltac io_head H :=
  unfold cmd_Run, cmd_CombinedOutput, filepath_Abs, os_Stat,
    os_MkdirAll, os_Open, os_Create, io_Copy, os_Rename, os_RemoveAll,
    os_ReadDir, logger_Info, logger_Warn, logger_Fatalf, fmt_Print, bar_Set,
    bar_Clear, time_Sleep in H.

Ltac io_run H :=
  cbv beta in H; cbn [failure result] in H;
  lazymatch type of H with
  | bind _ _ _ = _ =>
      let Hm := fresh "Hm" in
      apply bind_inv in H as [(? & ? & ? & ? & Hm & H & ?)|(? & Hm & ?)];
      [simplify_eq; io_run Hm; try io_run H | simplify_eq; io_run Hm]
  | ret _ _ = _ => apply ret_inv in H as (? & ? & ?); simplify_eq
  | emit _ _ = _ => apply emit_inv in H as (? & ? & ?); simplify_eq
  | os_Exit _ _ = _ => apply os_Exit_inv in H as (? & ? & ?); simplify_eq
  | sys _ _ _ _ = _ =>
      let Hrun := fresh "Hrun" in
      apply sys_inv in H as [(? & ? & ? & ? & ?)|(? & ? & ? & Hrun & ?)];
      [simplify_eq
      |cbv beta in Hrun; unfold updating in Hrun;
       repeat lazymatch type of Hrun with
              | match ?x with _ => _ end = _ => destruct x eqn:?
              end;
       simplify_eq]
  | start _ _ _ = _ =>
      apply start_inv in H as (? & ? & ? & ? & ? & ?); simplify_eq
  | exec_LookPath _ _ _ = _ =>
      apply exec_LookPath_inv in H as (? & ? & ?); simplify_eq
  | (if ?b then _ else _) _ = _ => destruct b eqn:?; io_run H
  | (match ?x with _ => _ end) _ = _ => destruct x eqn:?; io_run H
  | (let _ := _ in _) _ = _ => cbv zeta in H; io_run H
  | _ => first [progress (io_head H); io_run H | idtac]
  end.


(** ** Observations: lemmas *)

Lemma execs_app a b : execs (a ++ b) = execs a ++ execs b.
Proof. apply omap_app. Qed.

Lemma bars_app a b : bars (a ++ b) = bars a ++ bars b.
Proof. apply omap_app. Qed.

Lemma started_app a b : started (a ++ b) = started a ++ started b.
Proof. apply omap_app. Qed.

Lemma elem_of_execs c st evs : EvExec c st ∈ evs ↔ (c, st) ∈ execs evs.
Proof.
  unfold execs. rewrite list_elem_of_omap. split.
  - intros H. by exists (EvExec c st).
  - intros (ev & Hin & Hev). destruct ev; by simplify_eq.
Qed.

Lemma elem_of_bars n evs : EvBarSet n ∈ evs ↔ n ∈ bars evs.
Proof.
  unfold bars. rewrite list_elem_of_omap. split.
  - intros H. by exists (EvBarSet n).
  - intros (ev & Hin & Hev). destruct ev; by simplify_eq.
Qed.

Ltac stage_like_close :=
  eexists; split; [reflexivity|]; split; [reflexivity|];
  split; [reflexivity|];
  first [left; split; [reflexivity|discriminate]
        |right; eexists; reflexivity].


Section Stages.
Context (env : Env).

Lemma runMavenCommand_stage_like pomPath outputPath :
  stage_like (mvn_tree pomPath outputPath)
    (runMavenCommand env pomPath outputPath).
Proof.
  unfold runMavenCommand. intros fs r fs' evs H; io_run H; cbn [app]; stage_like_close.
Qed.

Lemma getEffectivePom_stage_like pomPath outputPath :
  stage_like (mvn_effective pomPath outputPath)
    (getEffectivePom env pomPath outputPath).
Proof.
  unfold getEffectivePom. intros fs r fs' evs H; io_run H; cbn [app]; stage_like_close.
Qed.

Lemma generateCycloneDX_stage_like pomPath outputPath :
  stage_like (mvn_cyclonedx pomPath (filepath_Dir outputPath))
    (generateCycloneDX env pomPath outputPath).
Proof.
  unfold generateCycloneDX. intros fs r fs' evs H; io_run H; cbn [app]; stage_like_close.
Qed.

Lemma runOSVScanner_stage_like sbomPath exitOnVuln :
  stage_like (osv_scanner sbomPath (reportPath sbomPath))
    (runOSVScanner env sbomPath exitOnVuln).
Proof.
  unfold runOSVScanner. intros fs r fs' evs H; io_run H; cbn [app]; stage_like_close.
Qed.

End Stages.

(** ** Staging: what it emits *)

Lemma quiet_app a b : quiet a → quiet b → quiet (a ++ b).
Proof.
  unfold quiet. rewrite execs_app, bars_app, started_app.
  by intros (-> & -> & ->) (-> & -> & ->).
Qed.

Section Staging.
Context (env : Env).

Lemma remove_entries_quiet dir entries fs r fs' evs :
  remove_entries env dir entries fs = (r, fs', evs) →
  (∃ o, r = Ret o) ∧ quiet evs.
Proof.
  revert fs r fs' evs. induction entries as [|entry rest IH];
    intros fs r fs' evs H; cbn [remove_entries] in H; io_run H.
  - split; [eauto|done].
  - split; [eauto|done].
  - apply IH in H as [? ?]. split; [done|]. by apply quiet_app.
Qed.

Lemma cleanDirectory_quiet dir fs r fs' evs :
  cleanDirectory env dir fs = (r, fs', evs) → (∃ o, r = Ret o) ∧ quiet evs.
Proof.
  unfold cleanDirectory. intros H. io_run H.
  - split; [eauto|done].
  - apply remove_entries_quiet in H as [? ?]. split; [done|].
    by apply quiet_app.
Qed.

Lemma copyFile_quiet src dst fs r fs' evs :
  copyFile env src dst fs = (r, fs', evs) → (∃ o, r = Ret o) ∧ quiet evs.
Proof.
  unfold copyFile. intros H. io_run H; cbn [app]; (split; [eauto|done]).
Qed.

Ltac quiet_pieces :=
  repeat match goal with
    | H : cleanDirectory _ _ _ = _ |- _ =>
        apply cleanDirectory_quiet in H as [[? ?] ?]
    | H : copyFile _ _ _ _ = _ |- _ =>
        apply copyFile_quiet in H as [[? ?] ?]
    end; simplify_eq.

Lemma stageArtifacts_quiet cfg fs r fs' evs :
  stageArtifacts env cfg fs = (r, fs', evs) →
  (r = Ret tt ∨ r = Exit 1) ∧ quiet evs.
Proof.
  unfold stageArtifacts. intros H. io_run H; quiet_pieces;
    (split; [eauto|]); repeat (apply quiet_app; try done).
Qed.

Lemma setup_quiet cfg fs r fs' evs :
  showHelp cfg = false → check cfg = false →
  setup env cfg fs = (r, fs', evs) →
  (r = Ret tt ∨ r = Exit 1) ∧ quiet evs.
Proof.
  unfold setup. intros -> -> H. io_run H;
    try (apply stageArtifacts_quiet in H as [? ?]);
    (split; [eauto|]); repeat (apply quiet_app; try done).
Qed.

End Staging.

(** ** The scanner's result *)

Lemma isExitStatus1_wait c st :
  isExitStatus1 (wait_error c st) = true ↔ st = Exited 1.
Proof.
  destruct st as [[|[]|]| |]; simpl; split; intros H; try done; by simplify_eq.
Qed.

Lemma wait_error_None c st : wait_error c st = None ↔ st = Exited 0.
Proof. destruct st as [[]| |]; simpl; split; intros H; by simplify_eq. Qed.

(** Decides membership of an event in an explicit list of events. *)
Ltac ev_in H :=
  repeat lazymatch type of H with
    | _ ∈ [] => by apply elem_of_nil in H
    | _ ∈ _ :: _ =>
        apply elem_of_cons in H as [H|H];
        [first [discriminate H | injection H; intros; subst]|]
    end.

(** Proves membership of an event in an explicit list of events. *)
Ltac ev_mem :=
  cbn [app]; repeat (apply elem_of_cons; first [left; reflexivity | right]).

Lemma runOSVScanner_verdict env sbomPath exitOnVuln fs r fs' evs c st :
  runOSVScanner env sbomPath exitOnVuln fs = (r, fs', evs) →
  EvExec c st ∈ evs →
  match classifyScanResult exitOnVuln st with
  | Success =>
      r = Ret None ∧
      EvLog Info ("Vulnerability report written to "
                    +:+ path_string (reportPath sbomPath)) ∈ evs
  | Advisory =>
      r = Ret None ∧
      EvLog Warn ("Vulnerabilities found! Details: "
                    +:+ path_string (reportPath sbomPath)) ∈ evs
  | FatalError => ∃ msg, r = Ret (Some (Errorf msg))
  end.
Proof.
  unfold runOSVScanner. intros H Hin. io_run H; cbn [app] in Hin; ev_in Hin.
  all: match goal with
       | |- context [classifyScanResult _ ?s] => generalize dependent s
       end; intros st; intros.
  all: destruct st as [[|[?|?|]|?]|?|?]; cbn in *; simplify_eq; cbn in *.
  all: try match goal with
           | H : bool_decide (?a = ?a) = false |- _ =>
               by apply bool_decide_eq_false in H
           end.
  all: try match goal with b : bool |- _ => destruct b; cbn end.
  all: first [by eauto | split; [done|ev_mem]].
Qed.

(** ** The whole run *)

Lemma app_cons_unique {A} (x : A) (a b pre post : list A) :
  a ++ x :: b = pre ++ x :: post → x ∉ a → x ∉ b → pre = a ∧ post = b.
Proof.
  revert pre. induction a as [|y a IH]; intros pre E Ha Hb.
  - destruct pre as [|z pre]; simplify_eq/=; [done|].
    exfalso. apply Hb. apply elem_of_app. right. by left.
  - destruct pre as [|z pre]; simplify_eq/=.
    + exfalso. apply Ha. by left.
    + destruct (IH pre) as [-> ->]; try done.
      intros ?. apply Ha. by right.
Qed.

Ltac stage_facts :=
  repeat match goal with
    | H : runMavenCommand _ _ _ _ = _ |- _ =>
        apply runMavenCommand_stage_like in H
          as (? & ? & ? & ? & [[? ?]|[? ?]])
    | H : getEffectivePom _ _ _ _ = _ |- _ =>
        apply getEffectivePom_stage_like in H
          as (? & ? & ? & ? & [[? ?]|[? ?]])
    | H : generateCycloneDX _ _ _ _ = _ |- _ =>
        apply generateCycloneDX_stage_like in H
          as (? & ? & ? & ? & [[? ?]|[? ?]])
    | H : runOSVScanner _ _ _ _ = _ |- _ =>
        apply runOSVScanner_stage_like in H
          as (? & ? & ? & ? & [[? ?]|[? ?]])
    end; simplify_eq.

(** Every path of [main] in a pipeline run, with what each part emitted. *)
Ltac main_paths H :=
  unfold main in H; io_run H;
  [match goal with
   | Hs : setup _ _ _ = _ |- _ =>
       apply setup_quiet in Hs as [_ (? & ? & ?)]; [|done..]
   end;
   unfold pipeline, tasks in H;
   cbn [run_tasks name action progress] in H;
   change (0 + 20 + 20 + 30 + 30) with 100 in H;
   change (0 + 20 + 20 + 30) with 70 in H;
   change (0 + 20 + 20) with 40 in H;
   change (0 + 20) with 20 in H;
   io_run H
  |match goal with
   | Hs : setup _ _ _ = _ |- _ =>
       apply setup_quiet in Hs as [[?|?] (? & ? & ?)]; [| |done..]
   end; simplify_eq].

Ltac cons_to_app :=
  repeat match goal with
    | |- context [?x :: ?l] =>
        lazymatch l with
        | [] => fail
        | _ => change (x :: l) with ([x] ++ l)
        end
    end.

Ltac obs_rewrite :=
  rewrite ?execs_app, ?bars_app, ?started_app;
  repeat match goal with
    | H : execs ?x = _ |- context [execs ?x] => rewrite !H
    | H : bars ?x = _ |- context [bars ?x] => rewrite !H
    | H : started ?x = _ |- context [started ?x] => rewrite !H
    end.

Arguments mvn_tree : simpl never.
Arguments mvn_effective : simpl never.
Arguments mvn_cyclonedx : simpl never.
Arguments osv_scanner : simpl never.
Arguments reportPath : simpl never.
Arguments path_string : simpl never.
Arguments Error : simpl never.

Ltac prefix_solve :=
  repeat first [apply prefix_nil | apply prefix_cons].

Lemma before_bar_app n a b :
  before_bar n (a ++ b) =
    if existsb (Z.eqb n) (bars a) then before_bar n a
    else a ++ before_bar n b.
Proof.
  induction a as [|ev a IH]; [done|].
  destruct ev; cbn; rewrite ?IH; try by destruct (existsb _ _).
  rewrite (Z.eqb_sym n). by destruct (_ =? _), (existsb _ _).
Qed.

Lemma before_bar_split n pre post :
  n ∉ bars pre → before_bar n (pre ++ EvBarSet n :: post) = pre.
Proof.
  intros Hn. rewrite before_bar_app.
  destruct (existsb (Z.eqb n) (bars pre)) eqn:E.
  - apply existsb_exists in E as (m & Hm & ->%Z.eqb_eq).
    by apply list_elem_of_In in Hm.
  - cbn. rewrite Z.eqb_refl. apply app_nil_r.
Qed.

Lemma bars_split_once n pre post evs :
  evs = pre ++ EvBarSet n :: post → NoDup (bars evs) → n ∉ bars pre.
Proof.
  intros -> Hnd. rewrite bars_app in Hnd. cbn in Hnd.
  apply NoDup_app in Hnd as (_ & Hnd & _). intros Hin.
  apply (Hnd _ Hin). by left.
Qed.

Section Run.
Context (env : Env).

Lemma main_order cfg fs r fs' evs :
  showHelp cfg = false → check cfg = false →
  main env cfg fs = (r, fs', evs) →
  started evs `prefix_of` stage_names ∧
  (execs evs).*1 `prefix_of` commands cfg ∧
  bars evs `prefix_of` [10; 20; 40; 70; 100] ∧
  (r = Ret tt →
   started evs = stage_names ∧ (execs evs).*1 = commands cfg ∧
   bars evs = [10; 20; 40; 70; 100]) ∧
  (r = Ret tt ∨ r = Exit 1).
Proof.
  intros Hh Hc H. main_paths H; stage_facts; obs_rewrite; cbn;
    (split; [prefix_solve|]); (split; [prefix_solve|]);
    (split; [prefix_solve|]); (split; [done|eauto]).
Qed.

Lemma main_full_bar cfg fs r fs' evs pre post :
  showHelp cfg = false → check cfg = false →
  main env cfg fs = (r, fs', evs) →
  evs = pre ++ EvBarSet 100 :: post →
  r = Ret tt ∧ started pre = stage_names ∧ (execs pre).*1 = commands cfg.
Proof.
  intros Hh Hc H E.
  assert (100 ∈ bars evs) as Hin.
  { rewrite E, bars_app. apply elem_of_app. right. by left. }
  assert (NoDup (bars evs) → pre = before_bar 100 evs) as Hpre.
  { intros Hnd. rewrite E. symmetry. apply before_bar_split.
    by eapply bars_split_once. }
  clear E. main_paths H; stage_facts; revert Hin Hpre.
  all: rewrite <- ?app_assoc, ?before_bar_app; obs_rewrite; cbn.
  all: intros Hin Hpre.
  all: try by (ev_in Hin).
  rewrite Hpre by (repeat constructor; set_solver by lia). clear Hpre.
  cons_to_app. obs_rewrite. done.
Qed.

Lemma main_scan_verdict cfg fs r fs' evs c st :
  showHelp cfg = false → check cfg = false →
  main env cfg fs = (r, fs', evs) →
  EvExec c st ∈ evs → cmd_name c = "osv-scanner" →
  match classifyScanResult (exitOnVuln cfg) st with
  | FatalError =>
      r = Exit 1 ∧
      ∃ err, last evs = Some (EvLog Fatal ("Scanning for Vulnerabilities"
                                             +:+ " error: " +:+ Error err))
  | _ =>
      r = Ret tt ∧
      last evs = Some (EvLog Info "Process completed successfully!")
  end.
Proof.
  intros Hh Hc H Hin Hname. main_paths H.
  all: try match goal with
           | Hs : runOSVScanner _ _ _ _ = _ |- _ =>
               pose proof (runOSVScanner_verdict _ _ _ _ _ _ _ c st Hs) as Hv
           end.
  all: stage_facts.
  all: apply elem_of_execs in Hin; revert Hin.
  all: rewrite <- ?app_assoc; obs_rewrite; cbn; intros Hin.
  all: ev_in Hin; try discriminate Hname.
  all: match type of Hv with
       | ?P → _ =>
           assert P as HP
             by (apply elem_of_execs;
                 match goal with
                 | F : execs _ = [_] |- _ => rewrite F; by left
                 end);
           specialize (Hv HP); clear HP
       end.
  all: destruct (classifyScanResult _ _);
    repeat match goal with
      | H : _ ∧ _ |- _ => destruct H
      | H : ∃ _, _ |- _ => destruct H
      end; simplify_eq.
  all: cons_to_app; rewrite ?last_app; cbn; eauto.
Qed.

(** *** The loop *)

Lemma bind_ret_eq {A B} (m : IO A) (k : A → IO B) fs a fs1 ev1 :
  m fs = (Ret a, fs1, ev1) →
  bind m k fs = (let '(r, fs2, ev2) := k a fs1 in (r, fs2, ev1 ++ ev2)).
Proof. unfold bind. by intros ->. Qed.

Lemma bind_exit_eq {A B} (m : IO A) (k : A → IO B) fs c fs1 ev1 :
  m fs = (Exit c, fs1, ev1) → bind m k fs = (Exit c, fs1, ev1).
Proof. unfold bind. by intros ->. Qed.

(** A task whose action reports success hands over to the rest of the
    list, with the bar advanced by the task's weight. *)
Lemma run_tasks_next t rest c fs fs1 ev1 :
  action t fs = (Ret None, fs1, ev1) →
  run_tasks (t :: rest) c fs =
    (let '(r, fs2, ev2) := run_tasks rest (c + progress t) fs1 in
     (r, fs2,
      EvLog Info (name t) :: ev1
        ++ [EvBarSet (c + progress t); EvSleep 100] ++ ev2)).
Proof.
  intros Ha. cbn [run_tasks].
  rewrite (bind_ret_eq _ _ _ tt fs [EvLog Info (name t)]) by done.
  rewrite (bind_ret_eq _ _ _ _ _ _ Ha).
  rewrite (bind_ret_eq _ _ _ tt fs1 []) by done.
  rewrite (bind_ret_eq _ _ _ tt fs1 [EvBarSet (c + progress t)]) by done.
  rewrite (bind_ret_eq _ _ _ tt fs1 [EvSleep 100]) by done.
  by destruct (run_tasks rest (c + progress t) fs1) as [[r fs2] ev2].
Qed.

(** A task whose action reports an error ends the process. *)
Lemma run_tasks_halt t rest c fs err fs1 ev1 :
  action t fs = (Ret (Some err), fs1, ev1) →
  run_tasks (t :: rest) c fs =
    (Exit 1, fs1,
     EvLog Info (name t) :: ev1
       ++ [EvPrint Stdout nl;
           EvLog Fatal (name t +:+ " error: " +:+ Error err)]).
Proof.
  intros Ha. cbn [run_tasks].
  rewrite (bind_ret_eq _ _ _ tt fs [EvLog Info (name t)]) by done.
  rewrite (bind_ret_eq _ _ _ _ _ _ Ha).
  by rewrite (bind_exit_eq _ _ fs1 1 fs1
                [EvPrint Stdout nl;
                 EvLog Fatal (name t +:+ " error: " +:+ Error err)]).
Qed.

Lemma run_tasks_app pre rest c fs c1 fs1 evs1 :
  run_tasks pre c fs = (Ret c1, fs1, evs1) →
  run_tasks (pre ++ rest) c fs =
    (let '(r, fs2, ev2) := run_tasks rest c1 fs1 in
     (r, fs2, evs1 ++ ev2)).
Proof.
  revert c fs evs1. induction pre as [|t pre IH]; intros c fs evs1 H.
  - apply ret_inv in H as (? & ? & ?). simplify_eq. cbn [app].
    by destruct (run_tasks rest _ _) as [[? ?] ?].
  - cbn [run_tasks] in H. io_run H.
    cbn [app].
    match goal with
    | Ha : action _ _ = _ |- _ => rewrite (run_tasks_next _ _ _ _ _ _ Ha)
    end.
    rewrite (IH _ _ _ H).
    destruct (run_tasks rest c1 fs1) as [[r fs2] ev2].
    cbn [app]. do 2 f_equal. by rewrite <- !app_assoc.
Qed.

End Run.

(** ** The stages, one by one *)

(** Settles what a failed system call can have been, given what is known
    about the tree and the faults. *)
Ltac sys_resolve :=
  repeat match goal with
    | H : sys_fails _ _ _ _ _ |- _ =>
        destruct H as [H|[H [? ?]]]; cbv beta in *; unfold updating in *
    end;
  repeat match goal with
    | H : context [match ?x with _ => _ end], E : ?x = _ |- _ =>
        rewrite E in H
    end;
  simplify_eq.

Lemma create_blocked p fs e :
  walk p fs = inl e → e ≠ ENOENT → ∃ e', fs_create (reportPath p) fs = inl e'.
Proof.
  intros Hw He. assert (p ≠ []) as Hp by (by intros ->).
  unfold reportPath.
  set (x := strings_TrimSuffix _ _ +:+ _). clearbody x.
  fold (filepath_Join (filepath_Dir p) x).
  rewrite (path_split p Hp) in Hw. unfold filepath_Join in Hw at 1.
  rewrite walk_app in Hw. unfold fs_create.
  destruct (filepath_Join (filepath_Dir p) x) eqn:E;
    [by apply Join_not_nil in E|]. rewrite <- E. clear E.
  unfold parent_of. rewrite filepath_Dir_Join.
  destruct (walk (filepath_Dir p) fs) as [e'|[d|m]]; [by eauto..|].
  exfalso. simpl in Hw. destruct (m !! filepath_Base p); by simplify_eq.
Qed.

Section StageTheory.
Context (env : Env).

Lemma runOSVScanner_absent sbomPath exitOnVuln fs r fs' evs :
  absent sbomPath fs →
  runOSVScanner env sbomPath exitOnVuln fs = (r, fs', evs) →
  ∃ msg, r = Ret (Some (Errorf msg)) ∧ fs' = fs ∧
    (∀ c st, EvExec c st ∉ evs) ∧
    (∀ x, msg ≠ "osv-scanner error: " +:+ x) ∧
    (∀ x, msg ≠ "vulnerabilities found, see details in: " +:+ x) ∧
    (walk sbomPath fs = inl ENOENT → fault env SysGetwd fs = None →
     msg = "SBOM file not found: " +:+ path_string sbomPath).
Proof.
  intros [e He] H. unfold runOSVScanner in H. io_run H; sys_resolve.
  all: try match goal with
           | Hb : os_IsNotExist _ = false |- _ =>
               cbn in Hb; apply bool_decide_eq_false in Hb
           end.
  all: try by (exfalso; destruct (create_blocked _ _ _ He) as [? ?];
               congruence).
  all: eexists; split; [reflexivity|]; split; [reflexivity|].
  all: split; [intros c st Hin; cbn [app] in Hin; by ev_in Hin|].
  all: split; [intros ? Hx; cbn in Hx; discriminate|].
  all: split; [intros ? Hx; cbn in Hx; discriminate|].
  all: intros Hw Hf; congruence.
Qed.

Lemma runOSVScanner_report sbomPath exitOnVuln fs r fs' evs :
  runOSVScanner env sbomPath exitOnVuln fs = (r, fs', evs) →
  let report := reportPath sbomPath in
  let scanner := osv_scanner sbomPath report in
  (∀ e, EvSys (SysCreate report) (Some e) ∈ evs →
        r = Ret (Some (Errorf ("failed to create output file: "
                                 +:+ Error (PathError "open" report e)))) ∧
        fs' = fs ∧ ∀ c st, EvExec c st ∉ evs) ∧
  (EvSys (SysCreate report) None ∈ evs →
   ∃ pre st post,
     evs = pre ++ EvExec scanner st :: post ∧
     EvSys (SysCreate report) None ∈ pre ∧
     (∀ c' st', EvExec c' st' ∉ pre) ∧
     (∀ why, st = LaunchFailure why → walk report fs' = inr (File "")) ∧
     ((∀ fs1, walk report fs1 = inr (File "") →
              is_file report (tool env scanner fs1).2) →
      is_file report fs')).
Proof.
  intros H report scanner. subst report scanner.
  unfold runOSVScanner in H. io_run H; cbn [app].
  all: split; [intros e0 Hin; ev_in Hin;
                 (split; [done|]; split; [done|]);
                 intros c st Hex; by ev_in Hex
              |intros Hin; ev_in Hin].
  all: match goal with
       | |- ∃ pre st post,
             ?a :: ?b :: ?c :: ?d :: EvExec _ ?s :: ?rest = _ ∧ _ =>
           exists [a; b; c; d], s, rest
       end.
  all: split; [done|]; split; [ev_mem|].
  all: split; [intros c' st' Hin'; by ev_in Hin'|].
  all: match goal with
       | Hc : fs_create _ _ = inr _ |- _ => apply create_walk in Hc
       end.
  all: split; [by intros why ->|].
  all: intros Hkeep; destruct (_.1.1); eauto; by eexists.
Qed.

Lemma generateCycloneDX_missing pomPath outputPath fs fs1 out fs2 e :
  let outputDir := filepath_Dir outputPath in
  let targetDir := filepath_Join outputDir "target" in
  let srcPath := filepath_Join targetDir "bom.xml" in
  fault env SysGetwd fs = None →
  fs_mkdirAll targetDir fs = inr fs1 →
  fault env (SysMkdirAll targetDir) fs = None →
  tool env (mvn_cyclonedx pomPath outputDir) fs1 = (Exited 0, out, fs2) →
  walk srcPath fs2 = inl e →
  generateCycloneDX env pomPath outputPath fs =
    (Ret (Some (Errorf ("failed to move SBOM to output dir: "
                          +:+ Error (LinkError "rename" srcPath outputPath e)))),
     fs2,
     [EvSys SysGetwd None; EvSys SysGetwd None;
      EvSys (SysMkdirAll targetDir) None;
      EvExec (mvn_cyclonedx pomPath outputDir) (Exited 0);
      EvSys (SysRename srcPath outputPath) (Some e)]).
Proof.
  intros outputDir targetDir srcPath Hwd Hmk Hmkf Htool Hsrc.
  subst outputDir targetDir srcPath.
  destruct (generateCycloneDX env pomPath outputPath fs) as [[r fs'] evs] eqn:H.
  unfold generateCycloneDX in H. io_run H; sys_resolve.
  all: try rewrite Htool in *; cbn [fst snd] in *.
  all: pose proof (λ new, rename_missing _ new _ _ Hsrc) as Hren.
  all: try by (cbn in *).
  all: repeat match goal with
         | H : context [fs_rename _ _ _] |- _ => rewrite Hren in H
         end; simplify_eq.
  all: try done.
Qed.

Lemma generateCycloneDX_cleanup pomPath outputPath fs r fs' evs e :
  let targetDir := filepath_Join (filepath_Dir outputPath) "target" in
  generateCycloneDX env pomPath outputPath fs = (r, fs', evs) →
  EvSys (SysRemoveAll targetDir) (Some e) ∈ evs →
  r = Ret None ∧
  EvSys (SysRename (filepath_Join targetDir "bom.xml") outputPath) None ∈ evs ∧
  EvLog Warn ("Failed to clean up target directory: "
                +:+ Error (PathError "unlinkat" targetDir e)) ∈ evs ∧
  last evs = Some (EvLog Info ("CycloneDX BOM written to "
                                 +:+ path_string outputPath)).
Proof.
  intros targetDir H Hin. subst targetDir.
  unfold generateCycloneDX in H. io_run H; cbn [app] in *; ev_in Hin.
  all: split; [done|]; split; [ev_mem|]; split; [ev_mem|done].
Qed.

End StageTheory.

(** ** Staging: what it does to the tree *)

Section StagingTheory.
Context (env : Env).

Lemma remove_entries_file dir entries fs r fs' evs p d :
  remove_entries env dir entries fs = (r, fs', evs) →
  walk p fs' = inr (File d) → walk p fs = inr (File d).
Proof.
  revert fs r fs' evs. induction entries as [|entry rest IH];
    intros fs r fs' evs H Hp; cbn [remove_entries] in H; io_run H;
    try done.
  eapply removeAll_file; [done|]. by eapply IH.
Qed.

Lemma cleanDirectory_file dir fs r fs' evs p d :
  cleanDirectory env dir fs = (r, fs', evs) →
  walk p fs' = inr (File d) → walk p fs = inr (File d).
Proof.
  unfold cleanDirectory. intros H Hp. io_run H; [done|].
  by eapply remove_entries_file.
Qed.

Lemma copyFile_source src dst fs fs' evs :
  copyFile env src dst fs = (Ret None, fs', evs) → is_file src fs.
Proof.
  unfold copyFile. intros H. io_run H.
  match goal with Hr : fs_read _ _ = inr ?s |- _ =>
    unfold fs_read in Hr; rename Hr into Hread end.
  destruct (walk x1 x6) as [?|[d|?]] eqn:Hw6; simplify_eq.
  assert (∃ d', walk x1 x5 = inr (File d')) as [d' Hw5].
  { destruct (create_file _ _ _ _ _ Heqs1 Hw6) as [?| ->]; [by eauto|].
    destruct n as [d'|m]; [by eauto|].
    by destruct (create_not_dir _ _ _ m Heqs1). }
  exists d'. by eapply mkdirAll_file.
Qed.

Lemma setup_needs_descriptor cfg fs a fs' evs :
  showHelp cfg = false → check cfg = false →
  setup env cfg fs = (Ret a, fs', evs) → is_file (pomFile cfg) fs.
Proof.
  unfold setup, stageArtifacts. intros -> -> H. io_run H.
  all: match goal with
       | Hc : copyFile _ _ _ _ = _ |- _ =>
           apply copyFile_source in Hc as [d Hd]
       end.
  all: match goal with
       | Hc : cleanDirectory _ _ _ = _ |- _ =>
           pose proof (cleanDirectory_file _ _ _ _ _ _ _ Hc Hd) as Hd1
       end.
  all: exists d; by eapply mkdirAll_file.
Qed.

Lemma setup_exit cfg fs c fs' evs :
  showHelp cfg = false → check cfg = false →
  setup env cfg fs = (Exit c, fs', evs) →
  c = 1 ∧ ∃ msg, last evs = Some (EvLog Fatal msg).
Proof.
  unfold setup, stageArtifacts. intros -> -> H. io_run H.
  all: repeat match goal with
         | Hc : cleanDirectory _ _ _ = _ |- _ =>
             apply cleanDirectory_quiet in Hc as [[? ?] _]
         | Hc : copyFile _ _ _ _ = _ |- _ =>
             apply copyFile_quiet in Hc as [[? ?] _]
         end; simplify_eq.
  all: split; [done|].
  all: rewrite <- ?app_assoc; rewrite ?last_app; cbn; eauto.
Qed.

Lemma setup_not_found cfg fs :
  showHelp cfg = false → check cfg = false →
  walk (pomFile cfg) fs = inl ENOENT →
  setup env cfg fs =
    (Exit 1, fs,
     [EvSys (SysStat (pomFile cfg)) (Some ENOENT);
      EvLog Fatal ("POM file not found: " +:+ path_string (pomFile cfg))]).
Proof.
  intros Hh Hc Hw.
  destruct (setup env cfg fs) as [[r fs'] evs] eqn:H.
  unfold setup in H. rewrite Hh, Hc in H. io_run H; sys_resolve;
    try done.
  all: cbn in *; by rewrite ?bool_decide_eq_true_2 in * by done.
Qed.

(** *** Staging twice *)

Lemma lookup_foldl_delete (m : gmap string node) (names : list string) k :
  foldl (λ m n, delete n m) m names !! k =
    if decide (k ∈ names) then None else m !! k.
Proof.
  revert m. induction names as [|n names IH]; intros m; cbn [foldl].
  - by rewrite decide_False by apply not_elem_of_nil.
  - rewrite IH. destruct (decide (k ∈ names)) as [Hin|Hin].
    + by rewrite decide_True by (by right).
    + destruct (decide (k = n)) as [->|Hne].
      * rewrite lookup_delete_eq. by rewrite decide_True by (by left).
      * rewrite lookup_delete_ne by done.
        rewrite decide_False; [done|].
        intros [?|?]%elem_of_cons; done.
Qed.

Lemma foldl_delete_all (m : gmap string node) :
  foldl (λ m n, delete n m) m (merge_sort name_le (map fst (map_to_list m))) = ∅.
Proof.
  apply map_eq. intros k. rewrite lookup_foldl_delete, lookup_empty.
  destruct (decide _) as [|Hk]; [done|].
  destruct (m !! k) as [v|] eqn:E; [|done]. exfalso. apply Hk.
  rewrite merge_sort_Permutation. apply list_elem_of_fmap.
  exists (k, v). split; [done|]. by apply elem_of_map_to_list.
Qed.

Lemma os_RemoveAll_entry dir n fs m :
  fault_free env → walk dir fs = inr (Dir m) →
  os_RemoveAll env (filepath_Join dir n) fs =
    (Ret None, put dir (Dir (delete n m)) fs,
     [EvSys (SysRemoveAll (filepath_Join dir n)) None]).
Proof.
  intros Hff Hw. unfold os_RemoveAll, bind, sys, updating, fs_removeAll.
  destruct (filepath_Join dir n) eqn:E; [by apply Join_not_nil in E|].
  rewrite <- E. clear E. rewrite filepath_Dir_Join, Hw, Hff.
  by rewrite (modify_Join _ _ _ _ _ Hw).
Qed.

Lemma remove_entries_all dir names fs m :
  fault_free env → walk dir fs = inr (Dir m) →
  ∃ evs, remove_entries env dir names fs =
           (Ret None,
            put dir (Dir (foldl (λ m n, delete n m) m names)) fs, evs).
Proof.
  intros Hff. revert fs m. induction names as [|n names IH]; intros fs m Hw.
  - exists []. cbn. by rewrite (put_id _ _ _ Hw).
  - cbn [remove_entries foldl].
    rewrite (bind_ret_eq _ _ _ _ _ _ (os_RemoveAll_entry dir n fs m Hff Hw)).
    destruct (IH (put dir (Dir (delete n m)) fs) (delete n m)) as [evs Hevs].
    { by eapply walk_put. }
    rewrite Hevs, put_put. eauto.
Qed.

Lemma cleanDirectory_empties dir fs m :
  fault_free env → walk dir fs = inr (Dir m) →
  ∃ evs, cleanDirectory env dir fs = (Ret None, put dir (Dir ∅) fs, evs).
Proof.
  intros Hff Hw. unfold cleanDirectory.
  assert (os_ReadDir env dir fs =
            (Ret (inr (merge_sort name_le (map fst (map_to_list m)))), fs,
             [EvSys (SysReadDir dir) None])) as Hrd.
  { unfold os_ReadDir, bind, sys, fs_readDir. by rewrite Hw, Hff. }
  rewrite (bind_ret_eq _ _ _ _ _ _ Hrd).
  destruct (remove_entries_all dir
              (merge_sort name_le (map fst (map_to_list m))) fs m Hff Hw)
    as [evs Hevs].
  rewrite Hevs, foldl_delete_all. eauto.
Qed.

Lemma stageArtifacts_blocked cfg fs e :
  fault_free env → fs_mkdirAll (outputDir cfg) fs = inl e →
  stageArtifacts env cfg fs =
    (Exit 1, fs,
     [EvSys (SysMkdirAll (outputDir cfg)) (Some e);
      EvLog Fatal ("Failed to create directory: "
                     +:+ Error (PathError "mkdir" (outputDir cfg) e))]).
Proof.
  intros Hff Hmk. unfold stageArtifacts.
  assert (os_MkdirAll env (outputDir cfg) fs =
            (Ret (Some (PathError "mkdir" (outputDir cfg) e)), fs,
             [EvSys (SysMkdirAll (outputDir cfg)) (Some e)])) as Hm.
  { unfold os_MkdirAll, bind, sys, updating. by rewrite Hmk. }
  by rewrite (bind_ret_eq _ _ _ _ _ _ Hm).
Qed.

Lemma stageArtifacts_cleaned cfg fs fsA :
  fault_free env → fs_mkdirAll (outputDir cfg) fs = inr fsA →
  ∃ ev, stageArtifacts env cfg fs =
          (let '(r, fs', ev') :=
             stageCopy env cfg (put (outputDir cfg) (Dir ∅) fsA) in
           (r, fs', ev ++ ev')).
Proof.
  intros Hff Hmk. unfold stageArtifacts.
  assert (os_MkdirAll env (outputDir cfg) fs =
            (Ret None, fsA, [EvSys (SysMkdirAll (outputDir cfg)) None])) as Hm.
  { unfold os_MkdirAll, bind, sys, updating. by rewrite Hmk, Hff. }
  rewrite (bind_ret_eq _ _ _ _ _ _ Hm).
  rewrite (bind_ret_eq _ _ _ tt fsA []) by done.
  destruct (mkdirAll_is_dir _ _ _ Hmk) as [m Hw].
  destruct (cleanDirectory_empties _ _ _ Hff Hw) as [evc Hc].
  rewrite (bind_ret_eq _ _ _ _ _ _ Hc).
  rewrite (bind_ret_eq _ _ _ tt _ []) by done.
  fold (stageCopy env cfg).
  destruct (stageCopy env cfg _) as [[r fs'] ev'].
  by exists (EvSys (SysMkdirAll (outputDir cfg)) None :: evc).
Qed.

Lemma stageCopy_within cfg fsB r fs' ev :
  walk (outputDir cfg) fsB = inr (Dir ∅) →
  stageCopy env cfg fsB = (r, fs', ev) →
  ∃ m', fs' = put (outputDir cfg) (Dir m') fsB ∧
        (r = Ret tt → ∃ d, m' = {["pom.xml" := File d]}).
Proof.
  intros Hw H. unfold stageCopy, copyFile, dstPomPath in H. io_run H.
  all: rewrite ?filepath_Dir_Join in *.
  all: repeat match goal with
         | Hm : fs_mkdirAll _ _ = inr _ |- _ =>
             rewrite (mkdirAll_dir _ _ _ Hw) in Hm; simplify_eq
         end.
  all: try by (exists ∅; split; [by rewrite (put_id _ _ _ Hw)|done]).
  all: match goal with
       | Hc : fs_create _ _ = inr _ |- _ =>
           apply create_inv in Hc as (m & _ & Hd & _ & ->);
           rewrite filepath_Dir_Join, filepath_Base_Join in *;
           rewrite Hw in Hd
       end; simplify_eq.
  all: try by (eexists; split; [reflexivity|done]).
  all: unfold fs_write;
    erewrite modify_Join by (by eapply walk_put);
    rewrite put_put.
  all: eexists; split; [reflexivity|]; intros _; eexists.
  all: change (partial_alter (λ _, Some ?v) ?k ?m) with (<[k := v]> m).
  all: by rewrite insert_insert_eq, insert_empty.
Qed.

Lemma stageArtifacts_again cfg fs r1 fs1 ev1 :
  fault_free env →
  stageArtifacts env cfg fs = (r1, fs1, ev1) →
  (∃ ev2, stageArtifacts env cfg fs1 = (r1, fs1, ev2)) ∧
  (r1 = Ret tt → fs_readDir (outputDir cfg) fs1 = inr ["pom.xml"]).
Proof.
  intros Hff H. destruct (fs_mkdirAll (outputDir cfg) fs) as [e|fsA] eqn:Hmk.
  - rewrite (stageArtifacts_blocked _ _ _ Hff Hmk) in H. simplify_eq.
    split; [|done]. rewrite (stageArtifacts_blocked _ _ _ Hff Hmk). eauto.
  - destruct (stageArtifacts_cleaned _ _ _ Hff Hmk) as [ev HB].
    rewrite HB in H. clear HB.
    destruct (mkdirAll_is_dir _ _ _ Hmk) as [m Hw].
    pose proof (walk_put _ (Dir ∅) _ _ Hw) as HwB.
    destruct (stageCopy env cfg _) as [[r fs'] ev'] eqn:Hcopy.
    simplify_eq.
    destruct (stageCopy_within _ _ _ _ _ HwB Hcopy) as (m' & -> & Hm').
    pose proof (walk_put _ (Dir m') _ _ HwB) as Hw1.
    split.
    + destruct (stageArtifacts_cleaned cfg _ _ Hff (mkdirAll_dir _ _ _ Hw1))
        as [ev2 H2].
      rewrite H2, !put_put, Hcopy, ?put_put. eauto.
    + intros Hr. destruct (Hm' Hr) as [d ->].
      unfold fs_readDir. rewrite Hw1. by rewrite map_to_list_singleton.
Qed.

End StagingTheory.

(** * The claims *)

Lemma commands_NoDup cfg : NoDup (commands cfg).
Proof.
  unfold commands, mvn_tree, mvn_effective, mvn_cyclonedx, osv_scanner.
  repeat (apply NoDup_cons; split;
          [intros Hin; repeat (apply elem_of_cons in Hin as [Hin|Hin];
                                [discriminate Hin|]);
           by apply elem_of_nil in Hin|]).
  apply NoDup_nil_2.
Qed.

(** C1: the scanner's exit code 0 is stage success; exit code 1 is advisory
    when [exitOnVuln] is unset (a warning is logged, the stage returns no
    error, the run completes with exit code 0) and a fatal stage error when
    it is set; every other exit, a signal or a failure to launch is a fatal
    stage error whatever the flag.  First for the stage, then for the whole
    run. *)
Theorem scan_result_classification :
  (∀ env sbomPath exitOnVuln fs r fs' evs c st,
     runOSVScanner env sbomPath exitOnVuln fs = (r, fs', evs) →
     EvExec c st ∈ evs →
     match classifyScanResult exitOnVuln st with
     | Success =>
         r = Ret None ∧
         EvLog Info ("Vulnerability report written to "
                       +:+ path_string (reportPath sbomPath)) ∈ evs
     | Advisory =>
         r = Ret None ∧
         EvLog Warn ("Vulnerabilities found! Details: "
                       +:+ path_string (reportPath sbomPath)) ∈ evs
     | FatalError => ∃ msg, r = Ret (Some (Errorf msg))
     end) ∧
  (∀ env cfg fs r fs' evs c st,
     showHelp cfg = false → check cfg = false →
     main env cfg fs = (r, fs', evs) →
     EvExec c st ∈ evs → cmd_name c = "osv-scanner" →
     match classifyScanResult (exitOnVuln cfg) st with
     | FatalError =>
         r = Exit 1 ∧
         ∃ err, last evs = Some (EvLog Fatal ("Scanning for Vulnerabilities"
                                                +:+ " error: " +:+ Error err))
     | _ =>
         r = Ret tt ∧ exit_code r = 0 ∧
         last evs = Some (EvLog Info "Process completed successfully!")
     end).
Proof.
  split.
  - intros. by eapply runOSVScanner_verdict.
  - intros env cfg fs r fs' evs c st Hh Hc H Hin Hname.
    pose proof (main_scan_verdict env cfg fs r fs' evs c st Hh Hc H Hin Hname)
      as Hv.
    destruct (classifyScanResult _ _); [| |done];
      destruct Hv as [-> ?]; done.
Qed.

Lemma scan_result_classification_witness :
  (main (Demo.good_env 1) (Demo.cfg0 false) Demo.fs0).1.1 = Ret tt.
Proof.
  set (run := main (Demo.good_env 1) (Demo.cfg0 false) Demo.fs0).
  refine (proj1 (proj2 scan_result_classification (Demo.good_env 1)
                   (Demo.cfg0 false) Demo.fs0 run.1.1 run.1.2 run.2
                   (osv_scanner ["out"; "sbom.xml"]
                      ["out"; "sbom-vulnerabilities.json"])
                   (Exited 1) eq_refl eq_refl _ _ eq_refl)).
  - subst run. by destruct (main _ _ _) as [[? ?] ?].
  - vm_compute. repeat (apply elem_of_cons; first [left; reflexivity | right]).
Defined.

(** Splits a run into its result, its final tree and its events. *)
Lemma run_eta {A} (m : IO A) fs : m fs = ((m fs).1.1, (m fs).1.2, (m fs).2).
Proof. by destruct (m fs) as [[? ?] ?]. Qed.

(** C2: in a pipeline run the stages are entered in the order
    dependency tree, effective descriptor, SBOM generation, vulnerability
    scan -- the stages a run entered and the commands it started are
    prefixes of the fixed lists -- a run that succeeds has entered all four
    and started each of the four distinct commands exactly once, and no
    command is ever started twice. *)
Theorem stage_order_fixed env cfg fs r fs' evs :
  showHelp cfg = false → check cfg = false →
  main env cfg fs = (r, fs', evs) →
  name <$> tasks env cfg = stage_names ∧
  started evs `prefix_of` stage_names ∧
  (execs evs).*1 `prefix_of` commands cfg ∧
  NoDup ((execs evs).*1) ∧
  (r = Ret tt →
   started evs = stage_names ∧ (execs evs).*1 = commands cfg).
Proof.
  intros Hh Hc H.
  destruct (main_order env cfg fs r fs' evs Hh Hc H)
    as (Hs & He & _ & Hok & _).
  split; [done|]. split; [done|]. split; [done|]. split.
  - destruct He as [k Hk]. pose proof (commands_NoDup cfg) as Hnd.
    rewrite Hk in Hnd. by apply NoDup_app in Hnd as [? _].
  - intros Hr. by destruct (Hok Hr) as (? & ? & _).
Qed.

Lemma stage_order_fixed_witness :
  started (main (Demo.good_env 0) (Demo.cfg0 false) Demo.fs0).2 = stage_names.
Proof.
  set (run := main (Demo.good_env 0) (Demo.cfg0 false) Demo.fs0).
  assert (run.1.1 = Ret tt) as Hr by (by vm_compute).
  exact (proj1 (proj2 (proj2 (proj2 (proj2
           (stage_order_fixed (Demo.good_env 0) (Demo.cfg0 false) Demo.fs0
              run.1.1 run.1.2 run.2 eq_refl eq_refl (run_eta _ _))))) Hr)).
Defined.

(** C8: the values the progress bar is set to form a prefix of
    10, 20, 40, 70, 100, so they never decrease and stay within 0..100; the
    four weights sum to 100; and the bar shows 100 only in a run that
    completes, after all four stages were entered and all four commands
    started. *)
Theorem progress_monotone env cfg fs r fs' evs :
  showHelp cfg = false → check cfg = false →
  main env cfg fs = (r, fs', evs) →
  bars evs `prefix_of` [10; 20; 40; 70; 100] ∧
  Sorted Z.le (bars evs) ∧
  Forall (λ n, 0 ≤ n ≤ 100) (bars evs) ∧
  foldr (λ t s, progress t + s) 0 (tasks env cfg) = 100 ∧
  (∀ pre post, evs = pre ++ EvBarSet 100 :: post →
     r = Ret tt ∧ started pre = stage_names ∧
     (execs pre).*1 = commands cfg).
Proof.
  intros Hh Hc H.
  destruct (main_order env cfg fs r fs' evs Hh Hc H)
    as (_ & _ & Hb & _ & _).
  split; [done|].
  assert (Sorted Z.le (bars evs) ∧ Forall (λ n, 0 ≤ n ≤ 100) (bars evs))
    as [? ?].
  { destruct Hb as [k Hk]. revert Hk. generalize (bars evs). intros l Hk.
    repeat (destruct l as [|? l]; simplify_eq/=).
    all: split; repeat first [apply Sorted_nil | apply Sorted_cons
                             |apply HdRel_nil | apply HdRel_cons
                             |apply Forall_nil_2 | apply Forall_cons_2
                             |lia]. }
  split; [done|]. split; [done|]. split; [done|].
  intros pre post E. by eapply main_full_bar.
Qed.

Lemma progress_monotone_witness :
  bars (main (Demo.good_env 0) (Demo.cfg0 false) Demo.fs0).2
    `prefix_of` [10; 20; 40; 70; 100].
Proof.
  exact (proj1 (progress_monotone (Demo.good_env 0) (Demo.cfg0 false) Demo.fs0
                  _ _ _ eq_refl eq_refl (run_eta _ _))).
Defined.

(** C3: when the tasks before task [t] succeed and [t]'s action returns an
    error, the loop stops there: whatever tasks follow, none of their
    actions runs; the tree is left as [t] left it (nothing is rolled back),
    nothing is retried, the last log entry names [t] and carries the
    error, and the process exits with code 1. *)
Theorem fail_fast env cfg pre t post fs c1 fs1 evs1 err fs2 evs2 :
  tasks env cfg = pre ++ t :: post →
  run_tasks pre 0 fs = (Ret c1, fs1, evs1) →
  action t fs1 = (Ret (Some err), fs2, evs2) →
  let halt :=
    evs1 ++ EvLog Info (name t) :: evs2
      ++ [EvPrint Stdout nl;
          EvLog Fatal (name t +:+ " error: " +:+ Error err)] in
  (∀ post', run_tasks (pre ++ t :: post') 0 fs = (Exit 1, fs2, halt)) ∧
  pipeline env cfg fs = (Exit 1, fs2, EvBarSet 10 :: halt) ∧
  (∀ fs0 evs0, setup env cfg fs0 = (Ret tt, fs, evs0) →
     main env cfg fs0 = (Exit 1, fs2, evs0 ++ EvBarSet 10 :: halt) ∧
     exit_code (main env cfg fs0).1.1 ≠ 0).
Proof.
  intros Htasks Hpre Hact halt.
  assert (∀ post', run_tasks (pre ++ t :: post') 0 fs = (Exit 1, fs2, halt))
    as Hloop.
  { intros post'. rewrite (run_tasks_app pre (t :: post') _ _ _ _ _ Hpre).
    by rewrite (run_tasks_halt t post' _ _ _ _ _ Hact). }
  assert (pipeline env cfg fs = (Exit 1, fs2, EvBarSet 10 :: halt)) as Hpipe.
  { unfold pipeline. rewrite Htasks.
    rewrite (bind_ret_eq _ _ _ tt fs [EvBarSet 10]) by done.
    by rewrite (bind_exit_eq _ _ _ _ _ _ (Hloop post)). }
  split; [done|]. split; [done|]. intros fs0 evs0 Hsetup.
  assert (main env cfg fs0 = (Exit 1, fs2, evs0 ++ EvBarSet 10 :: halt))
    as Hmain.
  { unfold main. rewrite (bind_ret_eq _ _ _ _ _ _ Hsetup). by rewrite Hpipe. }
  split; [done|]. by rewrite Hmain.
Qed.

Lemma fail_fast_witness :
  (pipeline Demo.failing_env (Demo.cfg0 false) Demo.staged_fs).1.1 = Exit 1.
Proof.
  pose (t := {| name := "Analyzing Dependencies";
                action := runMavenCommand Demo.failing_env
                            (dstPomPath (Demo.cfg0 false))
                            (depsPath (Demo.cfg0 false));
                progress := 20 |}).
  assert (∃ err fs2 evs2,
            action t Demo.staged_fs = (Ret (Some err), fs2, evs2))
    as (err & fs2 & evs2 & Ha) by (vm_compute; eauto).
  destruct (fail_fast Demo.failing_env (Demo.cfg0 false) [] t
              (tail (tasks Demo.failing_env (Demo.cfg0 false)))
              Demo.staged_fs 0 Demo.staged_fs [] err fs2 evs2
              eq_refl eq_refl Ha)
    as (_ & Hp & _).
  by rewrite Hp.
Defined.

(** C4: when the BOM plugin exits 0 and the file [target/bom.xml] is not
    there afterwards, SBOM generation returns an error, the one of the move
    and not the one of a failed subprocess. *)
Theorem missing_bom_is_fatal env pomPath outputPath fs fs1 out fs2 :
  let outputDir := filepath_Dir outputPath in
  let targetDir := filepath_Join outputDir "target" in
  let srcPath := filepath_Join targetDir "bom.xml" in
  fault env SysGetwd fs = None →
  fs_mkdirAll targetDir fs = inr fs1 →
  fault env (SysMkdirAll targetDir) fs = None →
  tool env (mvn_cyclonedx pomPath outputDir) fs1 = (Exited 0, out, fs2) →
  absent srcPath fs2 →
  ∃ e msg,
    msg = "failed to move SBOM to output dir: "
            +:+ Error (LinkError "rename" srcPath outputPath e) ∧
    generateCycloneDX env pomPath outputPath fs =
      (Ret (Some (Errorf msg)), fs2,
       [EvSys SysGetwd None; EvSys SysGetwd None;
        EvSys (SysMkdirAll targetDir) None;
        EvExec (mvn_cyclonedx pomPath outputDir) (Exited 0);
        EvSys (SysRename srcPath outputPath) (Some e)]) ∧
    ∀ x, msg ≠ "cyclonedx generation failed: " +:+ x.
Proof.
  intros outputDir targetDir srcPath Hwd Hmk Hmkf Htool [e He].
  exists e. eexists. split; [reflexivity|]. split.
  - by eapply generateCycloneDX_missing.
  - intros x Hx. cbn in Hx. discriminate.
Qed.

Lemma missing_bom_is_fatal_witness :
  ∃ msg, (generateCycloneDX Demo.silent_env ["out"; "pom.xml"]
            ["out"; "sbom.xml"] Demo.staged_fs).1.1
         = Ret (Some (Errorf msg)).
Proof.
  edestruct (missing_bom_is_fatal Demo.silent_env ["out"; "pom.xml"]
               ["out"; "sbom.xml"] Demo.staged_fs)
    as (e & msg & _ & Hrun & _);
    [reflexivity | vm_compute; reflexivity | reflexivity | reflexivity
    | by exists ENOENT; vm_compute |].
  exists msg. by rewrite Hrun.
Defined.

(** C5: on a machine whose system calls fail only when the tree makes
    them fail, staging is idempotent: run again on the tree it has left,
    it ends the same way and leaves the same tree, so the listing of the
    output directory after the second run is the listing after the first;
    after a successful staging that listing is [pom.xml] alone. *)
Theorem staging_idempotent env cfg fs r1 fs1 ev1 :
  fault_free env →
  stageArtifacts env cfg fs = (r1, fs1, ev1) →
  ∃ r2 fs2 ev2,
    stageArtifacts env cfg fs1 = (r2, fs2, ev2) ∧
    r2 = r1 ∧ fs2 = fs1 ∧
    fs_readDir (outputDir cfg) fs2 = fs_readDir (outputDir cfg) fs1 ∧
    (r1 = Ret tt → fs_readDir (outputDir cfg) fs1 = inr ["pom.xml"]).
Proof.
  intros Hff H.
  destruct (stageArtifacts_again env cfg fs r1 fs1 ev1 Hff H)
    as [[ev2 H2] Hls].
  exists r1, fs1, ev2. eauto.
Qed.

Lemma staging_idempotent_witness :
  ∃ fs1,
    (stageArtifacts (Demo.good_env 0) (Demo.cfg0 false) Demo.fs0).1.2 = fs1 ∧
    (stageArtifacts (Demo.good_env 0) (Demo.cfg0 false) fs1).1.2 = fs1 ∧
    fs_readDir ["out"] fs1 = inr ["pom.xml"].
Proof.
  set (run := stageArtifacts (Demo.good_env 0) (Demo.cfg0 false) Demo.fs0).
  destruct (staging_idempotent (Demo.good_env 0) (Demo.cfg0 false) Demo.fs0
              run.1.1 run.1.2 run.2 (λ _ _, eq_refl) (run_eta _ _))
    as (r2 & fs2 & ev2 & H2 & _ & -> & _ & Hls).
  exists run.1.2. split; [done|]. split; [by rewrite H2|].
  apply Hls. by vm_compute.
Defined.

(** C6: in a pipeline run, when the descriptor path does not exist the
    program exits with code 1; no subprocess is started and no stage is
    entered before it does; the last thing it logs is the fatal error.
    When the path is plainly missing the only thing done is the [stat]. *)
Theorem missing_descriptor_exits env cfg fs :
  showHelp cfg = false → check cfg = false →
  absent (pomFile cfg) fs →
  ∃ fs' evs,
    main env cfg fs = (Exit 1, fs', evs) ∧
    (∀ c st, EvExec c st ∉ evs) ∧
    started evs = [] ∧ bars evs = [] ∧
    (∃ msg, last evs = Some (EvLog Fatal msg)) ∧
    (walk (pomFile cfg) fs = inl ENOENT →
     fs' = fs ∧
     evs = [EvSys (SysStat (pomFile cfg)) (Some ENOENT);
            EvLog Fatal ("POM file not found: "
                           +:+ path_string (pomFile cfg))]).
Proof.
  intros Hh Hc [e He].
  destruct (setup env cfg fs) as [[[a|c] fs1] ev] eqn:Hs.
  - destruct (setup_needs_descriptor env cfg fs a fs1 ev Hh Hc Hs) as [d Hd].
    congruence.
  - destruct (setup_exit env cfg fs c fs1 ev Hh Hc Hs) as [-> Hlast].
    destruct (setup_quiet env cfg fs _ fs1 ev Hh Hc Hs)
      as [_ (Hex & Hbar & Hst)].
    exists fs1, ev. split.
    { unfold main. by rewrite (bind_exit_eq _ _ _ _ _ _ Hs). }
    split. { intros c st Hin%elem_of_execs. rewrite Hex in Hin.
             by apply elem_of_nil in Hin. }
    split; [done|]. split; [done|]. split; [done|].
    intros Hw. rewrite (setup_not_found env cfg fs Hh Hc Hw) in Hs.
    by simplify_eq.
Qed.

Lemma missing_descriptor_exits_witness :
  exit_code (main (Demo.good_env 0) Demo.cfg_missing Demo.fs0).1.1 = 1.
Proof.
  destruct (missing_descriptor_exits (Demo.good_env 0) Demo.cfg_missing
              Demo.fs0 eq_refl eq_refl)
    as (fs' & evs & H & _).
  - exists ENOENT. by vm_compute.
  - by rewrite H.
Defined.

(** C7: when removing the scratch directory fails, SBOM generation has
    already moved the BOM, logs the failure as a warning, then logs that
    the BOM was written and returns no error; the loop goes on to the
    tasks that follow, with the bar advanced. *)
Theorem scratch_cleanup_best_effort env pomPath outputPath fs r fs' evs e :
  let targetDir := filepath_Join (filepath_Dir outputPath) "target" in
  generateCycloneDX env pomPath outputPath fs = (r, fs', evs) →
  EvSys (SysRemoveAll targetDir) (Some e) ∈ evs →
  r = Ret None ∧
  EvSys (SysRename (filepath_Join targetDir "bom.xml") outputPath) None ∈ evs ∧
  EvLog Warn ("Failed to clean up target directory: "
                +:+ Error (PathError "unlinkat" targetDir e)) ∈ evs ∧
  last evs = Some (EvLog Info ("CycloneDX BOM written to "
                                 +:+ path_string outputPath)) ∧
  ∀ t rest c,
    action t = generateCycloneDX env pomPath outputPath →
    run_tasks (t :: rest) c fs =
      (let '(r2, fs2, ev2) := run_tasks rest (c + progress t) fs' in
       (r2, fs2,
        EvLog Info (name t) :: evs
          ++ [EvBarSet (c + progress t); EvSleep 100] ++ ev2)).
Proof.
  intros targetDir H Hin.
  destruct (generateCycloneDX_cleanup env pomPath outputPath fs r fs' evs e
              H Hin) as (-> & Hmv & Hwarn & Hlast).
  split; [done|]. split; [done|]. split; [done|]. split; [done|].
  intros t rest c Ht. apply run_tasks_next. by rewrite Ht.
Qed.

Lemma scratch_cleanup_best_effort_witness :
  (generateCycloneDX Demo.sticky_env ["out"; "pom.xml"] ["out"; "sbom.xml"]
     Demo.staged_fs).1.1 = Ret None.
Proof.
  refine (proj1 (scratch_cleanup_best_effort Demo.sticky_env
                   ["out"; "pom.xml"] ["out"; "sbom.xml"] Demo.staged_fs
                   _ _ _ EACCES (run_eta _ _) _)).
  vm_compute. repeat (apply elem_of_cons; first [left; reflexivity | right]).
Defined.

(** C9: when the SBOM path does not exist the scan returns an error and
    changes nothing; the scanner is not started; the error is neither of
    the two the scanner's own result can produce, and it is "SBOM file not
    found" when the path is plainly missing. *)
Theorem scan_requires_sbom env sbomPath exitOnVuln fs :
  absent sbomPath fs →
  ∃ msg evs,
    runOSVScanner env sbomPath exitOnVuln fs
      = (Ret (Some (Errorf msg)), fs, evs) ∧
    (∀ c st, EvExec c st ∉ evs) ∧
    (∀ x, msg ≠ "osv-scanner error: " +:+ x) ∧
    (∀ x, msg ≠ "vulnerabilities found, see details in: " +:+ x) ∧
    (walk sbomPath fs = inl ENOENT → fault env SysGetwd fs = None →
     msg = "SBOM file not found: " +:+ path_string sbomPath).
Proof.
  intros Habs.
  destruct (runOSVScanner env sbomPath exitOnVuln fs) as [[r fs'] evs] eqn:H.
  destruct (runOSVScanner_absent env sbomPath exitOnVuln fs r fs' evs Habs H)
    as (msg & -> & -> & ?).
  by exists msg, evs.
Qed.

Lemma scan_requires_sbom_witness :
  ∃ evs, runOSVScanner (Demo.good_env 0) ["out"; "sbom.xml"] false
           Demo.staged_fs
         = (Ret (Some (Errorf "SBOM file not found: /out/sbom.xml")),
            Demo.staged_fs, evs).
Proof.
  destruct (scan_requires_sbom (Demo.good_env 0) ["out"; "sbom.xml"] false
              Demo.staged_fs)
    as (msg & evs & H & _ & _ & _ & Hmsg).
  - exists ENOENT. by vm_compute.
  - exists evs. rewrite H. rewrite Hmsg; [done|by vm_compute|done].
Defined.

(** C10, as stated, fails: with the SBOM in place and a directory under the
    report's name, the stage gets past the existence check, cannot create
    the report, returns an error without starting the scanner, and no
    report file exists afterwards. *)
Lemma report_file_counterexample :
  let run := runOSVScanner (Demo.good_env 0) ["out"; "sbom.xml"] false
               Demo.blocked_fs in
  EvSys (SysStat ["out"; "sbom.xml"]) None ∈ run.2 ∧
  (∃ msg, run.1.1 = Ret (Some (Errorf msg))) ∧
  (∀ c st, EvExec c st ∉ run.2) ∧
  ¬ is_file (reportPath ["out"; "sbom.xml"]) run.1.2.
Proof.
  intros run. vm_compute in run. subst run. cbn [fst snd].
  split; [repeat (apply elem_of_cons; first [left; reflexivity | right])|].
  split; [by eexists|].
  split; [intros c st Hin; by ev_in Hin|].
  intros [d Hd]. vm_compute in Hd. discriminate.
Qed.

(** C10, amended: the report file is created, emptied if it was there,
    before the scanner is started.  When that creation fails the stage
    returns an error, changes nothing and never starts the scanner.  When
    it succeeds the scanner is the next and only subprocess; if it cannot
    be launched the empty report file is still there when the stage
    returns; and it is there when the stage returns, whatever the stage
    returns, provided the scanner does not remove the empty file it was
    given. *)
Theorem report_created_before_scan env sbomPath exitOnVuln fs r fs' evs :
  runOSVScanner env sbomPath exitOnVuln fs = (r, fs', evs) →
  let report := reportPath sbomPath in
  let scanner := osv_scanner sbomPath report in
  (∀ e, EvSys (SysCreate report) (Some e) ∈ evs →
        r = Ret (Some (Errorf ("failed to create output file: "
                                 +:+ Error (PathError "open" report e)))) ∧
        fs' = fs ∧ ∀ c st, EvExec c st ∉ evs) ∧
  (EvSys (SysCreate report) None ∈ evs →
   ∃ pre st post,
     evs = pre ++ EvExec scanner st :: post ∧
     EvSys (SysCreate report) None ∈ pre ∧
     (∀ c' st', EvExec c' st' ∉ pre) ∧
     (∀ why, st = LaunchFailure why → walk report fs' = inr (File "")) ∧
     ((∀ fs1, walk report fs1 = inr (File "") →
              is_file report (tool env scanner fs1).2) →
      is_file report fs')).
Proof. apply runOSVScanner_report. Qed.

Lemma report_created_before_scan_witness :
  let fs := fs_write ["out"; "sbom.xml"] "<bom/>" Demo.staged_fs in
  let run := runOSVScanner (Demo.good_env 2) ["out"; "sbom.xml"] true fs in
  ∃ pre st post,
    run.2 = pre ++ EvExec (osv_scanner ["out"; "sbom.xml"]
                             ["out"; "sbom-vulnerabilities.json"]) st :: post ∧
    EvSys (SysCreate ["out"; "sbom-vulnerabilities.json"]) None ∈ pre.
Proof.
  intros fs run.
  destruct (proj2 (report_created_before_scan (Demo.good_env 2)
                     ["out"; "sbom.xml"] true fs _ _ _ (run_eta _ _)))
    as (pre & st & post & Hevs & Hpre & _).
  - vm_compute.
    repeat (apply elem_of_cons; first [left; reflexivity | right]).
  - by exists pre, st, post.
Defined.
